(** * obsidian-tagger: a shallow embedding of [main.py] and its specification

    The development follows the class [ObsidianTagger]: the metadata codec
    ([parse_frontmatter], [update_frontmatter_tags]), the corpus scan
    ([get_all_vault_tags]), the suggestion client ([suggest_tags]) and the
    orchestrator ([add_tags]).

    Python [str] values are modelled as [string] (the UTF-8 bytes of the text:
    the delimiter is ASCII, so searching for it and slicing around it agree
    with the code-point view, byte-wise lexicographic order is code-point
    order, and skipping one character skips the bytes of one code point:
    [skip_char]).  PyYAML, [json], the Anthropic client, [str()] of a list and
    [pathlib] are libraries outside the repository: they are the fields of the
    class [Externals], and every statement is proved for all of them. *)

From stdpp Require Import gmap strings list sorting pretty.
From Stdlib Require Import ZArith Ascii.

Local Open Scope Z_scope.
Local Open Scope nat_scope.
Local Set Warnings "-clear-no-such-hyp".

(** ** Exceptions and fallible computations *)

(** Every exception the program meets is a subclass of [Exception]; the
    messages of those raised by the interpreter are the CPython ones. *)
Inductive exn : Type :=
  | ValueError (msg : string)
  | TypeError (msg : string)
  | AttributeError (msg : string)
  | OSError (kind msg : string)
  | LibraryError (kind msg : string).

Inductive result (A : Type) : Type :=
  | Ok (a : A)
  | Raise (e : exn).
Arguments Ok {A} a.
Arguments Raise {A} e.

Global Instance result_ret : MRet result := fun _ a => Ok a.
Global Instance result_bind : MBind result := fun _ _ f m =>
  match m with
  | Ok a => f a
  | Raise e => Raise e
  end.

Global Instance result_fmap : FMap result := fun _ _ f m =>
  match m with
  | Ok a => Ok (f a)
  | Raise e => Raise e
  end.

Definition is_raise {A} (r : result A) : bool :=
  match r with Ok _ => false | Raise _ => true end.

(** ** Strings: the [str] operations the program uses *)

Definition LF : string := String "010"%char "".

(** [s.startswith(p)] *)
Definition startswith (s p : string) : bool := String.prefix p s.

(** [s[n:]] for a non-negative [n] *)
Fixpoint slice_from (n : nat) (s : string) : string :=
  match n, s with
  | 0, _ => s
  | S n', String _ s' => slice_from n' s'
  | S _, EmptyString => EmptyString
  end.

(** [s[:n]] for a non-negative [n] *)
Fixpoint slice_to (n : nat) (s : string) : string :=
  match n, s with
  | 0, _ => EmptyString
  | S n', String c s' => String c (slice_to n' s')
  | S _, EmptyString => EmptyString
  end.

(** [s[a:b]] for non-negative [a], [b] *)
Definition slice (a b : nat) (s : string) : string := slice_from a (slice_to b s).

(** A byte [10xxxxxx], which continues a UTF-8 character. *)
Definition is_continuation (c : ascii) : bool :=
  match c with
  | Ascii _ _ _ _ _ _ false true => true
  | _ => false
  end.

Fixpoint skip_continuation (s : string) : string :=
  match s with
  | String c s' => if is_continuation c then skip_continuation s' else s
  | EmptyString => EmptyString
  end.

(** [s[1:]]: the text without its first character, that is without the
    first byte and the continuation bytes that follow it. *)
Definition skip_char (s : string) : string :=
  match s with
  | String _ s' => skip_continuation s'
  | EmptyString => EmptyString
  end.

(** [s.find(sub)]: the least position at which [sub] occurs in [s] *)
Fixpoint str_find (sub s : string) : option nat :=
  if String.prefix sub s then Some 0
  else match s with
       | EmptyString => None
       | String _ s' => S <$> str_find sub s'
       end.

(** [s.index(sub)]: as [find], but raises [ValueError] when there is none *)
Definition str_index (s sub : string) : result nat :=
  match str_find sub s with
  | Some i => Ok i
  | None => Raise (ValueError "substring not found")
  end.

(** [sub in s] on strings *)
Definition str_contains (s sub : string) : bool :=
  match str_find sub s with Some _ => true | None => false end.

(** [sep.join(l)] on a list of strings *)
Definition str_join (sep : string) (l : list string) : string := String.concat sep l.

(** ** Python values: what [yaml.safe_load] and [json.loads] produce

    The core schema: null, booleans, integers, strings, sequences and
    mappings (an insertion-ordered [dict] is an association list).  Floats,
    timestamps, binary data and YAML sets are outside the model. *)
#[warnings="-register-all"] Inductive pyval : Type :=
  | PNone
  | PBool (b : bool)
  | PInt (z : Z)
  | PStr (s : string)
  | PList (l : list pyval)
  | PDict (d : list (pyval * pyval)).

(** [bool(v)] *)
Definition truthy (v : pyval) : bool :=
  match v with
  | PNone => false
  | PBool b => b
  | PInt z => negb (z =? 0)%Z
  | PStr s => negb (String.eqb s "")
  | PList l => match l with [] => false | _ => true end
  | PDict d => match d with [] => false | _ => true end
  end.

(** [type(v).__name__] *)
Definition type_name (v : pyval) : string :=
  match v with
  | PNone => "NoneType"
  | PBool _ => "bool"
  | PInt _ => "int"
  | PStr _ => "str"
  | PList _ => "list"
  | PDict _ => "dict"
  end.

(** Hashable values up to Python equality: [True == 1] and [False == 0], so a
    [set] or the keys of a [dict] identify them. *)
Inductive hkey : Type :=
  | KNone
  | KNum (z : Z)
  | KStr (s : string).

Global Instance hkey_eq_dec : EqDecision hkey.
Proof. solve_decision. Defined.

Global Instance hkey_countable : Countable hkey.
Proof.
  refine (inj_countable'
    (fun k => match k with
              | KNone => inl ()
              | KNum z => inr (inl z)
              | KStr s => inr (inr s)
              end)
    (fun x => match x with
              | inl _ => KNone
              | inr (inl z) => KNum z
              | inr (inr s) => KStr s
              end) _).
  by intros [].
Defined.

(** [hash(v)] succeeds on scalars and raises [TypeError] on lists and dicts. *)
Definition py_hash (v : pyval) : result hkey :=
  match v with
  | PNone => Ok KNone
  | PBool b => Ok (KNum (if b then 1 else 0)%Z)
  | PInt z => Ok (KNum z)
  | PStr s => Ok (KStr s)
  | PList _ => Raise (TypeError "unhashable type: 'list'")
  | PDict _ => Raise (TypeError "unhashable type: 'dict'")
  end.

Definition key_is (k : hkey) (v : pyval) : bool :=
  match py_hash v with
  | Ok k' => bool_decide (k' = k)
  | Raise _ => false
  end.

(** [d.get(k)] on the association list of a [dict] *)
Fixpoint dict_get (k : hkey) (d : list (pyval * pyval)) : option pyval :=
  match d with
  | [] => None
  | (k', v) :: d' => if key_is k k' then Some v else dict_get k d'
  end.

(** [d[k] = v]: an existing key keeps its position, a new one goes last. *)
Fixpoint dict_set (k : pyval) (v : pyval) (d : list (pyval * pyval))
  : list (pyval * pyval) :=
  match d with
  | [] => [(k, v)]
  | (k', v') :: d' =>
      if match py_hash k with Ok h => key_is h k' | Raise _ => false end
      then (k', v) :: d'
      else (k', v') :: dict_set k v d'
  end.

(** [v[k] = x] *)
Definition py_setitem (v k x : pyval) : result pyval :=
  match v with
  | PDict d => Ok (PDict (dict_set k x d))
  | PList _ => Raise (TypeError "list indices must be integers or slices, not str")
  | _ => Raise (TypeError ("'" +:+ type_name v +:+ "' object does not support item assignment"))
  end.

(** [v[k]] for a string key [k] *)
Definition py_getitem (v : pyval) (k : string) : result pyval :=
  match v with
  | PDict d =>
      match dict_get (KStr k) d with
      | Some x => Ok x
      | None => Raise (LibraryError "KeyError" k)
      end
  | PStr _ => Raise (TypeError "string indices must be integers, not 'str'")
  | PList _ => Raise (TypeError "list indices must be integers or slices, not str")
  | _ => Raise (TypeError ("'" +:+ type_name v +:+ "' object is not subscriptable"))
  end.

(** [k in v] for a string key [k]: a key of a dict, a substring of a string,
    an element of a list. *)
Definition py_contains (v : pyval) (k : string) : result bool :=
  match v with
  | PDict d => Ok (bool_decide (is_Some (dict_get (KStr k) d)))
  | PStr s => Ok (str_contains s k)
  | PList l => Ok (existsb (key_is (KStr k)) l)
  | _ => Raise (TypeError ("argument of type '" +:+ type_name v +:+ "' is not iterable"))
  end.

(** The strings of a list all of whose elements are [str]; [None] when an
    element is not: [all(isinstance(x, str) for x in l)]. *)
Fixpoint as_strs (l : list pyval) : option (list string) :=
  match l with
  | [] => Some []
  | PStr s :: l' => (s ::.) <$> as_strs l'
  | _ :: _ => None
  end.

(** The numbers (integers, and booleans as 0 and 1) of a list all of whose
    elements are numbers, each with the element it comes from. *)
Fixpoint as_nums (l : list pyval) : option (list (Z * pyval)) :=
  match l with
  | [] => Some []
  | PInt z :: l' => ((z, PInt z) ::.) <$> as_nums l'
  | PBool b :: l' => (((if b then 1 else 0)%Z, PBool b) ::.) <$> as_nums l'
  | _ :: _ => None
  end.

(** [set(l)], listed by first occurrence: an element equal to an earlier one
    is dropped, an unhashable one raises. *)
Fixpoint py_set (l : list pyval) : result (list pyval) :=
  match l with
  | [] => Ok []
  | v :: l' =>
      h ← py_hash v;
      rest ← py_set l';
      Ok (v :: filter (fun w => negb (key_is h w)) rest)
  end.

Definition num_le (a b : Z * pyval) : Prop := (a.1 ≤ b.1)%Z.
Global Instance num_le_dec : RelDecision num_le.
Proof. intros a b. unfold num_le. apply _. Defined.

(** [sorted(l)] on distinct hashable values: strings compare with strings and
    numbers with numbers; any other comparison raises [TypeError], and a list
    of at most one element is never compared. *)
Definition py_sorted (l : list pyval) : result (list pyval) :=
  match as_strs l with
  | Some ss => Ok (PStr <$> merge_sort String.le ss)
  | None =>
      match as_nums l with
      | Some ns => Ok (snd <$> merge_sort num_le ns)
      | None =>
          if bool_decide (length l ≤ 1) then Ok l
          else Raise (TypeError "'<' not supported between instances")
      end
  end.

(** [sorted(set(l))] *)
Definition py_sorted_set (l : list pyval) : result (list pyval) :=
  s ← py_set l; py_sorted s.

(** ** The world outside the repository *)

(** A segment of the service's reply: [content.type] and [content.text]. *)
Record content_block : Type := Block { block_type : string; block_text : string }.

Class Externals : Type := {
  (** [yaml.safe_load] *)
  yaml_safe_load : string → result pyval;
  (** [yaml.dump(_, sort_keys=False, allow_unicode=True)] *)
  yaml_dump : pyval → result string;
  (** [json.loads] *)
  json_loads : string → result pyval;
  (** [client.messages.create] on the one user message: [response.content] *)
  messages_create : string → result (list content_block);
  (** [str(l)] for a list, as an f-string renders it *)
  py_str : list pyval → string;
  (** [Path(p).stem] *)
  path_stem : string → string;
}.

(** What the program prints. *)
Inductive out_event : Type :=
  | ErrorProcessing (file : string) (e : exn)
  | ErrorUpdatingFrontmatter (e : exn)
  | SuccessfullyUpdated (file : string)
  | AddedTags (tags : gset string).

(** A file of the vault: its text and whether it can be opened for writing,
    or the error that reading it raises. *)
Inductive file : Type :=
  | Regular (content : string) (writable : bool)
  | Unreadable (e : exn).

(** The vault's tree, by path relative to the vault root. *)
Abbreviation filesystem := (gmap string file).

(** [open(p, 'r', encoding='utf-8').read()] *)
Definition read_file (fs : filesystem) (p : string) : result string :=
  match fs !! p with
  | Some (Regular c _) => Ok c
  | Some (Unreadable e) => Raise e
  | None => Raise (OSError "FileNotFoundError" p)
  end.

(** [open(p, 'w', encoding='utf-8').write(s)] *)
Definition write_file (fs : filesystem) (p s : string) : result filesystem :=
  match fs !! p with
  | Some (Regular _ false) => Raise (OSError "PermissionError" p)
  | Some (Unreadable e) => Raise e
  | _ => Ok (<[p := Regular s true]> fs)
  end.

Definition endswith (s p : string) : bool :=
  startswith (String.rev s) (String.rev p).

(** [vault_path.rglob("*.md")] *)
Definition rglob_md (fs : filesystem) : list string :=
  filter (fun p => endswith p ".md" = true) (map_to_list fs).*1.

(** ** The program *)

Section ObsidianTagger.
Context `{Externals}.

(** [content[3:].index('---') + 3]: where the block is taken to close, as
    [parse_frontmatter] and [update_frontmatter_tags] both compute it. *)
Definition find_end_idx (content : string) : result nat :=
  i ← str_index (slice_from 3 content) "---"; Ok (i + 3).

(** The body of the [try] of [parse_frontmatter]. *)
Definition parse_frontmatter_try (content : string) : result pyval :=
  end_idx ← find_end_idx content;
  frontmatter ← yaml_safe_load (slice 3 end_idx content);
  Ok (if truthy frontmatter then frontmatter else PDict []).

Definition parse_frontmatter (content : string) : pyval :=
  if negb (startswith content "---") then PDict []
  else match parse_frontmatter_try content with
       | Ok frontmatter => frontmatter
       | Raise _ => PDict []
       end.

(** [all_tags.update(tags)]: the elements are added in order, and the first
    unhashable one raises, leaving the earlier ones in the set. *)
Fixpoint set_update (all_tags : gset hkey) (tags : list pyval)
  : gset hkey * option exn :=
  match tags with
  | [] => (all_tags, None)
  | v :: tags' =>
      match py_hash v with
      | Ok h => set_update ({[h]} ∪ all_tags) tags'
      | Raise e => (all_tags, Some e)
      end
  end.

(** The part of the loop body of [get_all_vault_tags] that follows the read:
    the set after this file, and the exception the body raised, if any. *)
Definition collect_tags (content : string) (all_tags : gset hkey)
  : gset hkey * option exn :=
  let frontmatter := parse_frontmatter content in
  if negb (truthy frontmatter) then (all_tags, None)
  else match py_contains frontmatter "tags" with
       | Raise e => (all_tags, Some e)
       | Ok false => (all_tags, None)
       | Ok true =>
           match py_getitem frontmatter "tags" with
           | Raise e => (all_tags, Some e)
           | Ok (PStr tag) => ({[KStr tag]} ∪ all_tags, None)
           | Ok (PList tags) => set_update all_tags tags
           | Ok _ => (all_tags, None)
           end
       end.

(** One iteration of the loop of [get_all_vault_tags]. *)
Definition scan_file (fs : filesystem) (st : gset hkey * list out_event)
    (md_file : string) : gset hkey * list out_event :=
  match read_file fs md_file with
  | Raise e => (st.1, st.2 ++ [ErrorProcessing md_file e])
  | Ok content =>
      match collect_tags content st.1 with
      | (all_tags, None) => (all_tags, st.2)
      | (all_tags, Some e) => (all_tags, st.2 ++ [ErrorProcessing md_file e])
      end
  end.

(** The set of tags, and what the scan printed. *)
Definition get_all_vault_tags (fs : filesystem) : gset hkey * list out_event :=
  foldl (scan_file fs) (∅, []) (rglob_md fs).

(** [', '.join(v)]: [v] must be iterable and yield strings only (a dict
    yields its keys, a string its characters, here its bytes). *)
Definition py_join (v : pyval) : result string :=
  let join_all (l : list pyval) :=
    match as_strs l with
    | Some ss => Ok (str_join ", " ss)
    | None => Raise (TypeError "sequence item: expected str instance")
    end in
  match v with
  | PList l => join_all l
  | PDict d => join_all d.*1
  | PStr s => Ok (str_join ", " ((fun c => String c "") <$> String.list_ascii_of_string s))
  | _ => Raise (TypeError "can only join an iterable")
  end.

Definition key_str (k : hkey) : option string :=
  match k with KStr s => Some s | _ => None end.

(** [', '.join(sorted(vault_tags))]: a tag that is not a string makes
    [sorted] or [join] raise [TypeError]. *)
Definition join_sorted (vault_tags : gset hkey) : result string :=
  match mapM key_str (elements vault_tags) with
  | Some ss => Ok (str_join ", " (merge_sort String.le ss))
  | None => Raise (TypeError "sequence item: expected str instance")
  end.

Definition DQ : string := String "034"%char "".

Definition prompt_head : string :=
  "You are a helpful assistant that suggests relevant tags for Obsidian markdown notes." +:+ LF +:+
  "- Given the following note contents and existing tags, suggest additional relevant tags." +:+ LF +:+
  "- Only suggest tags that would be genuinely useful for organization and retrieval, and are directly relevant to the note, not just tentatively related." +:+ LF +:+
  "- Only suggest the " +:+ DQ +:+ "papers" +:+ DQ +:+ " tag if the note is a clipping of the arxiv link itself, not just if it's a note containing the arxiv link. A good heuristic is whether the note's title is the paper title." +:+ LF +:+ LF.

Definition prompt_tail : string :=
  "Reply with only a JSON array of suggested new tags. Include both completely new tags and relevant existing vault tags that aren't currently applied to this note." +:+ LF +:+
  "Example response format: [" +:+ DQ +:+ "tag1" +:+ DQ +:+ ", " +:+ DQ +:+ "tag2" +:+ DQ +:+ ", " +:+ DQ +:+ "tag3" +:+ DQ +:+ "]".

Definition create_tag_generation_prompt (title file_contents : string)
    (current_tags : pyval) (vault_tags : gset hkey) : result string :=
  vault ← join_sorted vault_tags;
  current ← py_join current_tags;
  Ok (prompt_head +:+
      "Existing tags in vault: " +:+ vault +:+ LF +:+
      "Current note tags: " +:+ current +:+ LF +:+ LF +:+
      "Note contents:" +:+ LF +:+ LF +:+
      "<title>" +:+ LF +:+ title +:+ LF +:+ "</title>" +:+ LF +:+ LF +:+
      "<note>" +:+ LF +:+ file_contents +:+ LF +:+ "</note>" +:+ LF +:+ LF +:+
      prompt_tail).

(** The part of [suggest_tags] after the request: the reply is one text
    segment whose text is a JSON array of strings, or the call fails. *)
Definition parse_response (response : list content_block) : result (list string) :=
  match response with
  | [content] =>
      if negb (String.eqb (block_type content) "text")
      then Raise (ValueError "Expected text response from API")
      else
        suggested_tags ← json_loads (block_text content);
        match suggested_tags with
        | PList l =>
            match as_strs l with
            | Some tags => Ok tags
            | None => Raise (ValueError "Invalid response format from API")
            end
        | _ => Raise (ValueError "Invalid response format from API")
        end
  | _ => Raise (ValueError "Expected exactly one response from API")
  end.

Definition suggest_tags (title file_contents : string) (current_tags : pyval)
    (vault_tags : gset hkey) : result (list string) :=
  prompt ← create_tag_generation_prompt title file_contents current_tags vault_tags;
  response ← messages_create prompt;
  parse_response response.

(** The body of the [try] of [update_frontmatter_tags].  [content[end_idx +
    4:]] is what follows the closing delimiter, less one character. *)
Definition update_frontmatter_tags_try (content : string) (new_tags : list pyval)
  : result string :=
  end_idx ← find_end_idx content;
  loaded ← yaml_safe_load (slice 3 end_idx content);
  let frontmatter := if truthy loaded then loaded else PDict [] in
  tags ← py_sorted_set new_tags;
  frontmatter' ← py_setitem frontmatter (PStr "tags") (PList tags);
  new_frontmatter ← yaml_dump frontmatter';
  Ok ("---" +:+ LF +:+ new_frontmatter +:+ "---" +:+ LF +:+
      skip_char (slice_from (end_idx + 3) content)).

(** The new text, and what was printed. *)
Definition update_frontmatter_tags (content : string) (new_tags : list pyval)
  : string * list out_event :=
  if negb (startswith content "---")
  then ("---" +:+ LF +:+ "tags: " +:+ py_str new_tags +:+ LF +:+ "---" +:+ LF +:+ LF +:+ content, [])
  else match update_frontmatter_tags_try content new_tags with
       | Ok updated => (updated, [])
       | Raise e => (content, [ErrorUpdatingFrontmatter e])
       end.

(** [frontmatter.get('tags', [])] followed by the wrapping of a bare string *)
Definition get_current_tags (frontmatter : pyval) : result pyval :=
  match frontmatter with
  | PDict d =>
      match dict_get (KStr "tags") d with
      | Some (PStr tag) => Ok (PList [PStr tag])
      | Some current_tags => Ok current_tags
      | None => Ok (PList [])
      end
  | _ => Raise (AttributeError ("'" +:+ type_name frontmatter +:+ "' object has no attribute 'get'"))
  end.

(** [current_tags + new_tags] *)
Definition py_add_list (current_tags : pyval) (new_tags : list pyval)
  : result (list pyval) :=
  match current_tags with
  | PList l => Ok (l ++ new_tags)
  | _ => Raise (TypeError ("unsupported operand type(s) for +: '" +:+ type_name current_tags +:+ "' and 'list'"))
  end.

(** [sorted(set(current_tags + new_tags))] *)
Definition merge_tags (current_tags : pyval) (new_tags : list string)
  : result (list pyval) :=
  both ← py_add_list current_tags (PStr <$> new_tags);
  py_sorted_set both.

(** [set(new_tags) - set(current_tags)] *)
Definition added_tags (new_tags : list string) (current_tags : list pyval)
  : gset string :=
  list_to_set (filter (fun t => existsb (key_is (KStr t)) current_tags = false) new_tags).

(** The state of a run of [add_tags]: the vault and the lines printed. *)
Record world : Type := World { w_fs : filesystem; w_out : list out_event }.

(** The body of the [try] of [add_tags], threading the world: the world it
    leaves, and the exception it raised, if any. *)
Definition add_tags_try (fs : filesystem) (filepath : string) : world * option exn :=
  match read_file fs filepath with
  | Raise e => (World fs [], Some e)
  | Ok contents =>
      let frontmatter := parse_frontmatter contents in
      match get_current_tags frontmatter with
      | Raise e => (World fs [], Some e)
      | Ok current_tags =>
          let '(vault_tags, scan_out) := get_all_vault_tags fs in
          let title := path_stem filepath in
          match suggest_tags title contents current_tags vault_tags with
          | Raise e => (World fs scan_out, Some e)
          | Ok new_tags =>
              match merge_tags current_tags new_tags with
              | Raise e => (World fs scan_out, Some e)
              | Ok all_tags =>
                  let '(updated_content, update_out) :=
                    update_frontmatter_tags contents all_tags in
                  match write_file fs filepath updated_content with
                  | Raise e => (World fs (scan_out ++ update_out), Some e)
                  | Ok fs' =>
                      (World fs' (scan_out ++ update_out ++
                         [SuccessfullyUpdated filepath;
                          AddedTags (added_tags new_tags
                            (match current_tags with PList l => l | _ => [] end))]),
                       None)
                  end
              end
          end
      end
  end.

(** [add_tags]: a failure is printed and raised again. *)
Definition add_tags (fs : filesystem) (filepath : string) : world * option exn :=
  match add_tags_try fs filepath with
  | (w, None) => (w, None)
  | (w, Some e) => (World (w_fs w) (w_out w ++ [ErrorProcessing filepath e]), Some e)
  end.

End ObsidianTagger.

(** ** Notions of the specification *)

(** The first occurrences of a list, in order: the elements of [set(l)]. *)
Fixpoint dedup (l : list string) : list string :=
  match l with
  | [] => []
  | x :: l' => x :: filter (fun y => y ≠ x) (dedup l')
  end.

(** [sorted(unique(l))] on tags: the distinct strings of [l] in increasing
    order, compared as Python compares [str]. *)
Definition sorted_unique (l : list string) : list string :=
  merge_sort String.le (dedup l).

(** The three characters at position [end_idx] are a marker line: at the
    start of a line, and alone on it. *)
Definition is_marker_line (content : string) (end_idx : nat) : Prop :=
  slice (end_idx - 1) end_idx content = LF ∧
  (slice_from (end_idx + 3) content = "" ∨
   String.prefix LF (slice_from (end_idx + 3) content) = true).

(** The hashable elements of a tag list that precede its first unhashable
    one. *)
Fixpoint hashable_prefix (l : list pyval) : gset hkey :=
  match l with
  | [] => ∅
  | v :: l' =>
      match py_hash v with
      | Ok h => {[h]} ∪ hashable_prefix l'
      | Raise _ => ∅
      end
  end.

Section Specification.
Context `{Externals}.

(** The tags a document declares, a bare string counting as one tag. *)
Definition doc_tags (content : string) : gset hkey :=
  match parse_frontmatter content with
  | PDict d =>
      match dict_get (KStr "tags") d with
      | Some (PStr tag) => {[KStr tag]}
      | Some (PList tags) => hashable_prefix tags
      | _ => ∅
      end
  | _ => ∅
  end.

(** The tags of the file at a path; none when it cannot be read. *)
Definition file_tags (fs : filesystem) (md_file : string) : gset hkey :=
  match read_file fs md_file with
  | Ok content => doc_tags content
  | Raise _ => ∅
  end.

(** A reply that the suggestion client accepts as the tag list [tags]:
    exactly one segment, of text type, whose text is a JSON array of
    strings. *)
Definition accepted_reply (response : list content_block) (tags : list string) : Prop :=
  ∃ text, response = [Block "text" text] ∧
          json_loads text = Ok (PList (PStr <$> tags)).

(** The ways the [try] of [update_frontmatter_tags] fails, in the order of
    its steps: no closing delimiter, a block that does not parse, tags that
    cannot be sorted, a block that is not a mapping, a mapping that cannot be
    written. *)
Inductive update_failure (content : string) (new_tags : list pyval) : exn → Prop :=
  | fail_unterminated e :
      find_end_idx content = Raise e →
      update_failure content new_tags e
  | fail_load end_idx e :
      find_end_idx content = Ok end_idx →
      yaml_safe_load (slice 3 end_idx content) = Raise e →
      update_failure content new_tags e
  | fail_tags end_idx loaded e :
      find_end_idx content = Ok end_idx →
      yaml_safe_load (slice 3 end_idx content) = Ok loaded →
      py_sorted_set new_tags = Raise e →
      update_failure content new_tags e
  | fail_not_mapping end_idx loaded tags e :
      find_end_idx content = Ok end_idx →
      yaml_safe_load (slice 3 end_idx content) = Ok loaded →
      py_sorted_set new_tags = Ok tags →
      truthy loaded = true →
      (∀ d, loaded ≠ PDict d) →
      e = TypeError (match loaded with
                     | PList _ => "list indices must be integers or slices, not str"
                     | _ => "'" +:+ type_name loaded +:+ "' object does not support item assignment"
                     end) →
      update_failure content new_tags e
  | fail_dump end_idx loaded tags e :
      find_end_idx content = Ok end_idx →
      yaml_safe_load (slice 3 end_idx content) = Ok loaded →
      py_sorted_set new_tags = Ok tags →
      yaml_dump (PDict (dict_set (PStr "tags") (PList tags)
                   (match loaded with PDict d => d | _ => [] end))) = Raise e →
      (truthy loaded = false ∨ ∃ d, loaded = PDict d) →
      update_failure content new_tags e.

End Specification.

(** ** Recorded library behaviour

    An instance of [Externals] that answers as the libraries do on the inputs
    listed in it and rejects every other input.  The concrete runs below are
    made with it. *)

Fixpoint pyval_eqb (a b : pyval) {struct a} : bool :=
  match a, b with
  | PNone, PNone => true
  | PBool x, PBool y => Bool.eqb x y
  | PInt x, PInt y => (x =? y)%Z
  | PStr x, PStr y => String.eqb x y
  | PList l1, PList l2 =>
      (fix go (l1 l2 : list pyval) : bool :=
         match l1, l2 with
         | [], [] => true
         | x :: l1', y :: l2' => pyval_eqb x y && go l1' l2'
         | _, _ => false
         end) l1 l2
  | PDict d1, PDict d2 =>
      (fix go (d1 d2 : list (pyval * pyval)) : bool :=
         match d1, d2 with
         | [], [] => true
         | (k1, v1) :: d1', (k2, v2) :: d2' =>
             pyval_eqb k1 k2 && pyval_eqb v1 v2 && go d1' d2'
         | _, _ => false
         end) d1 d2
  | _, _ => false
  end.

Fixpoint assoc {K V} (eqb : K → K → bool) (k : K) (l : list (K * V)) : option V :=
  match l with
  | [] => None
  | (k', v) :: l' => if eqb k k' then Some v else assoc eqb k l'
  end.

(** [repr] of a value whose strings need no escaping. *)
Fixpoint simple_repr (v : pyval) : string :=
  match v with
  | PNone => "None"
  | PBool b => if b then "True" else "False"
  | PInt z => pretty z
  | PStr s => "'" +:+ s +:+ "'"
  | PList l => "[" +:+ str_join ", " (map simple_repr l) +:+ "]"
  | PDict d =>
      "{" +:+ str_join ", "
        (map (fun kv => simple_repr kv.1 +:+ ": " +:+ simple_repr kv.2) d) +:+ "}"
  end.

(** The part of a path after its last [/]. *)
Fixpoint path_name (s acc : string) : string :=
  match s with
  | EmptyString => acc
  | String c s' => if bool_decide (c = "/"%char) then path_name s' s' else path_name s' acc
  end.

(** The position of the last dot of a name. *)
Fixpoint last_dot (s : string) (i : nat) (acc : option nat) : option nat :=
  match s with
  | EmptyString => acc
  | String c s' => last_dot s' (S i) (if bool_decide (c = "."%char) then Some i else acc)
  end.

(** [Path(p).stem]: the final component without its last suffix. *)
Definition simple_stem (p : string) : string :=
  let name := path_name p p in
  match last_dot name 0 None with
  | Some i =>
      if bool_decide (0 < i ∧ i < String.length name - 1) then slice_to i name else name
  | None => name
  end.

Record library_facts : Type := Facts {
  yaml_loads : list (string * result pyval);
  yaml_dumps : list (pyval * result string);
  json_facts : list (string * result pyval);
  service_reply : result (list content_block);
}.

Definition recorded (facts : library_facts) : Externals := {|
  yaml_safe_load s :=
    default (Raise (LibraryError "yaml.YAMLError" s))
      (assoc String.eqb s (yaml_loads facts));
  yaml_dump v :=
    default (Raise (LibraryError "yaml.YAMLError" "cannot represent an object"))
      (assoc pyval_eqb v (yaml_dumps facts));
  json_loads s :=
    default (Raise (LibraryError "json.JSONDecodeError" s))
      (assoc String.eqb s (json_facts facts));
  messages_create _ := service_reply facts;
  py_str l := simple_repr (PList l);
  path_stem := simple_stem;
|}.

(** ** Example documents *)

(** Libraries of which nothing is recorded; the service is unreachable. *)
Definition no_facts : library_facts :=
  Facts [] [] [] (Raise (LibraryError "anthropic.APIConnectionError" "Connection error.")).

(** A block that is never closed. *)
Definition unterminated_doc : string :=
  "---" +:+ LF +:+ "tags: foo" +:+ LF +:+ "body text".

(** A block one of whose values contains the delimiter's characters. *)
Definition mid_line_doc : string :=
  "---" +:+ LF +:+ "title: a---b" +:+ LF +:+ "---" +:+ LF +:+ "body".

(** A text whose first line begins with the delimiter's characters but is
    not a marker line. *)
Definition inline_open_doc : string :=
  "---title: x" +:+ LF +:+ "---" +:+ LF +:+ "body".

(** The same, with a tag list after the title. *)
Definition tagged_mid_line_doc : string :=
  "---" +:+ LF +:+ "title: a---b" +:+ LF +:+ "tags: [x]" +:+ LF +:+ "---" +:+ LF +:+ "body".

(** What [update_frontmatter_tags] makes of [mid_line_doc] with the tag
    [x], and of [tagged_mid_line_doc] with no tag. *)
Definition mid_line_written : string :=
  "---" +:+ LF +:+ "title: a" +:+ LF +:+ "tags:" +:+ LF +:+ "- x" +:+ LF +:+
  "---" +:+ LF +:+ LF +:+ "---" +:+ LF +:+ "body".

Definition tagged_mid_line_written : string :=
  "---" +:+ LF +:+ "title: a" +:+ LF +:+ "tags: []" +:+ LF +:+
  "---" +:+ LF +:+ LF +:+ "tags: [x]" +:+ LF +:+ "---" +:+ LF +:+ "body".

Definition mid_line_facts : library_facts :=
  Facts [(LF +:+ "title: a", Ok (PDict [(PStr "title", PStr "a")]));
         (LF +:+ "title: a---b" +:+ LF, Ok (PDict [(PStr "title", PStr "a---b")]));
         (LF +:+ "title: a---b" +:+ LF +:+ "tags: [x]" +:+ LF,
            Ok (PDict [(PStr "title", PStr "a---b"); (PStr "tags", PList [PStr "x"])]));
         (LF +:+ "title: a" +:+ LF +:+ "tags:" +:+ LF +:+ "- x" +:+ LF,
            Ok (PDict [(PStr "title", PStr "a"); (PStr "tags", PList [PStr "x"])]))]
        [(PDict [(PStr "title", PStr "a"); (PStr "tags", PList [PStr "x"])],
          Ok ("title: a" +:+ LF +:+ "tags:" +:+ LF +:+ "- x" +:+ LF));
         (PDict [(PStr "title", PStr "a"); (PStr "tags", PList [])],
          Ok ("title: a" +:+ LF +:+ "tags: []" +:+ LF))]
        []
        (Raise (LibraryError "anthropic.APIConnectionError" "Connection error.")).

(** A note that opens with a horizontal rule, a paragraph and a second
    rule: the text between the rules is a YAML scalar, not a mapping. *)
Definition rule_doc : string :=
  "---" +:+ LF +:+ "Intro paragraph" +:+ LF +:+ "---" +:+ LF +:+ "body".

Definition rule_facts : library_facts :=
  Facts [(LF +:+ "Intro paragraph" +:+ LF, Ok (PStr "Intro paragraph"))] [] []
    (Raise (LibraryError "anthropic.APIConnectionError" "Connection error.")).

(** A note with a title and a tag list that is neither sorted nor free of
    duplicates, and what PyYAML makes of its block and of the updated
    mapping. *)
Definition tagged_block : string :=
  LF +:+ "title: Note" +:+ LF +:+ "tags: [b, a, b]" +:+ LF.

Definition tagged_doc : string :=
  "---" +:+ tagged_block +:+ "---" +:+ LF +:+ "body text".

Definition tagged_mapping : list (pyval * pyval) :=
  [(PStr "title", PStr "Note"); (PStr "tags", PList [PStr "b"; PStr "a"; PStr "b"])].

Definition retagged_mapping : list (pyval * pyval) :=
  [(PStr "title", PStr "Note"); (PStr "tags", PList [PStr "a"; PStr "b"])].

Definition retagged_block : string :=
  "title: Note" +:+ LF +:+ "tags:" +:+ LF +:+ "- a" +:+ LF +:+ "- b" +:+ LF.

Definition retagged_doc : string :=
  "---" +:+ LF +:+ retagged_block +:+ "---" +:+ LF +:+ "body text".

Definition tagged_facts : library_facts :=
  Facts [(tagged_block, Ok (PDict tagged_mapping));
         (LF +:+ retagged_block, Ok (PDict retagged_mapping))]
        [(PDict retagged_mapping, Ok retagged_block)]
        []
        (Raise (LibraryError "anthropic.APIConnectionError" "Connection error.")).

(** A vault of three notes: tags [a, b] in flow style, tags [b, c] in block
    style, and a note without a metadata block. *)
Definition doc_ab : string :=
  "---" +:+ LF +:+ "tags: [a, b]" +:+ LF +:+ "---" +:+ LF +:+ "first note".

Definition doc_bc : string :=
  "---" +:+ LF +:+ "tags:" +:+ LF +:+ "- b" +:+ LF +:+ "- c" +:+ LF +:+ "---" +:+ LF +:+ "second note".

Definition doc_plain : string := "a note without metadata".

Definition vault_facts : library_facts :=
  Facts [(LF +:+ "tags: [a, b]" +:+ LF,
            Ok (PDict [(PStr "tags", PList [PStr "a"; PStr "b"])]));
         (LF +:+ "tags:" +:+ LF +:+ "- b" +:+ LF +:+ "- c" +:+ LF,
            Ok (PDict [(PStr "tags", PList [PStr "b"; PStr "c"])]))]
        [] []
        (Raise (LibraryError "anthropic.APIConnectionError" "Connection error.")).

Definition vault_abc : filesystem :=
  {[ "one.md" := Regular doc_ab true;
     "dir/two.md" := Regular doc_bc true;
     "three.md" := Regular doc_plain true ]}.

(** A service that answers with a JSON object, and one that answers with an
    array containing a number: both are valid JSON, neither is an array of
    strings. *)
Definition object_reply_facts : library_facts :=
  Facts [(LF +:+ "tags: [a, b]" +:+ LF,
            Ok (PDict [(PStr "tags", PList [PStr "a"; PStr "b"])]))]
        []
        [("{}", Ok (PDict []))]
        (Ok [Block "text" "{}"]).

Definition number_reply_facts : library_facts :=
  Facts [(LF +:+ "tags: [a, b]" +:+ LF,
            Ok (PDict [(PStr "tags", PList [PStr "a"; PStr "b"])]))]
        []
        [("[" +:+ DQ +:+ "x" +:+ DQ +:+ ", 1]", Ok (PList [PStr "x"; PInt 1]))]
        (Ok [Block "text" ("[" +:+ DQ +:+ "x" +:+ DQ +:+ ", 1]")]).

(** The end-to-end run of the specification: a note tagged [foo], to which
    the service suggests [bar] and [baz]. *)
Definition e2e_doc : string :=
  "---" +:+ LF +:+ "tags: foo" +:+ LF +:+ "---" +:+ LF +:+ "body text".

Definition e2e_dump : string :=
  "tags:" +:+ LF +:+ "- bar" +:+ LF +:+ "- baz" +:+ LF +:+ "- foo" +:+ LF.

Definition e2e_written : string :=
  "---" +:+ LF +:+ e2e_dump +:+ "---" +:+ LF +:+ "body text".

Definition e2e_mapping : list (pyval * pyval) :=
  [(PStr "tags", PList [PStr "bar"; PStr "baz"; PStr "foo"])].

Definition e2e_reply : string :=
  "[" +:+ DQ +:+ "bar" +:+ DQ +:+ ", " +:+ DQ +:+ "baz" +:+ DQ +:+ "]".

Definition e2e_facts : library_facts :=
  Facts [(LF +:+ "tags: foo" +:+ LF, Ok (PDict [(PStr "tags", PStr "foo")]));
         (LF +:+ e2e_dump, Ok (PDict e2e_mapping))]
        [(PDict e2e_mapping, Ok e2e_dump)]
        [(e2e_reply, Ok (PList [PStr "bar"; PStr "baz"]))]
        (Ok [Block "text" e2e_reply]).

(** A note whose [tags] key has no value, in a vault where the service would
    answer with a well-formed suggestion. *)
Definition null_tags_doc : string :=
  "---" +:+ LF +:+ "tags:" +:+ LF +:+ "---" +:+ LF +:+ "body text".

Definition null_tags_facts : library_facts :=
  Facts [(LF +:+ "tags:" +:+ LF, Ok (PDict [(PStr "tags", PNone)]))]
        []
        [(e2e_reply, Ok (PList [PStr "bar"; PStr "baz"]))]
        (Ok [Block "text" e2e_reply]).

(** ** The command line *)

(** What a run of [main] shows: its own lines, the confirmation prompt of
    [input], and the lines of [add_tags]. *)
Inductive main_event : Type :=
  | Printed (line : string)
  | Prompted (text : string)
  | Tagger (ev : out_event).

Section Main.
Context `{Externals}.

(** [str(Path(filepath))]: the path as [pathlib] normalizes it. *)
Variable normalize_path : string → string.

(** [main], for the argument vector [sys.argv], the value of
    [os.getenv('ANTHROPIC_API_KEY')] and the outcome of the [input] call:
    the vault it leaves, what it showed, and the exception that escaped.
    Constructing the client from the key is taken not to raise. *)
Definition main (argv : list string) (api_key : option string)
    (stdin : result string) (fs : filesystem)
  : filesystem * list main_event * option exn :=
  if bool_decide (length argv < 2)
  then (fs, [Printed "please provide a filepath"], None)
  else
    let filepath := str_join " " (drop 1 argv) in
    if match api_key with
       | None => true
       | Some key => String.eqb key ""
       end
    then (fs, [Printed "please set ANTHROPIC_API_KEY"], None)
    else
      let shown := [Printed ("Adding tags to " +:+ filepath);
                    Prompted "Press Enter to continue..."] in
      match stdin with
      | Raise e => (fs, shown, Some e)
      | Ok _ =>
          let '(w, raised) := add_tags fs (normalize_path filepath) in
          (w_fs w, shown ++ (Tagger <$> w_out w), raised)
      end.

End Main.

(** ** Further notions *)

Section FurtherNotions.
Context `{Externals}.

(** The exception that the loop body of [get_all_vault_tags] raises on a
    file, if any. *)
Definition file_error (fs : filesystem) (md_file : string) : option exn :=
  match read_file fs md_file with
  | Raise e => Some e
  | Ok content => (collect_tags content ∅).2
  end.

(** The line the scan prints for a file, if any. *)
Definition file_report (fs : filesystem) (md_file : string) : list out_event :=
  match file_error fs md_file with
  | Some e => [ErrorProcessing md_file e]
  | None => []
  end.

End FurtherNotions.

(** ** Further example documents *)

(** A vault in which one note is tagged with a year, which YAML reads as a
    number. *)
Definition year_doc : string :=
  "---" +:+ LF +:+ "tags: [2024]" +:+ LF +:+ "---" +:+ LF +:+ "a diary".

Definition year_facts : library_facts :=
  Facts [(LF +:+ "tags: [2024]" +:+ LF, Ok (PDict [(PStr "tags", PList [PInt 2024])]));
         (LF +:+ "tags: [a, b]" +:+ LF,
            Ok (PDict [(PStr "tags", PList [PStr "a"; PStr "b"])]))]
        []
        [(e2e_reply, Ok (PList [PStr "bar"; PStr "baz"]))]
        (Ok [Block "text" e2e_reply]).

Definition year_vault : filesystem :=
  {[ "one.md" := Regular doc_ab true; "diary.md" := Regular year_doc true ]}.

(** A vault with one note without a metadata block, and a service that
    suggests [bar] and [baz]. *)
Definition plain_vault : filesystem := {[ "plain.md" := Regular doc_plain true ]}.

Definition plain_facts : library_facts :=
  Facts [] [] [(e2e_reply, Ok (PList [PStr "bar"; PStr "baz"]))]
        (Ok [Block "text" e2e_reply]).

(** The same tag written as a bare string and as a list of one string. *)
Definition bare_list_doc : string :=
  "---" +:+ LF +:+ "tags: [foo]" +:+ LF +:+ "---" +:+ LF +:+ "body text".

Definition bare_facts : library_facts :=
  Facts [(LF +:+ "tags: foo" +:+ LF, Ok (PDict [(PStr "tags", PStr "foo")]));
         (LF +:+ "tags: [foo]" +:+ LF, Ok (PDict [(PStr "tags", PList [PStr "foo"])]))]
        [] []
        (Raise (LibraryError "anthropic.APIConnectionError" "Connection error.")).

(** A note whose body follows the closing delimiter on the same line. *)
Definition same_line_doc : string :=
  "---" +:+ LF +:+ "a: 1" +:+ LF +:+ "---body".

Definition same_line_facts : library_facts :=
  Facts [(LF +:+ "a: 1" +:+ LF, Ok (PDict [(PStr "a", PInt 1)]))]
        [(PDict [(PStr "a", PInt 1); (PStr "tags", PList [PStr "x"])],
          Ok ("a: 1" +:+ LF +:+ "tags:" +:+ LF +:+ "- x" +:+ LF))]
        []
        (Raise (LibraryError "anthropic.APIConnectionError" "Connection error.")).

(** * Properties *)

(** ** Searching and slicing *)

Lemma prefix_nil (s : string) : String.prefix "" s = true.
Proof. by destruct s. Qed.

Lemma prefix_cons (c d : ascii) (p s : string) :
  String.prefix (String c p) (String d s) = bool_decide (c = d) && String.prefix p s.
Proof. simpl. destruct (ascii_dec c d); case_bool_decide; done. Qed.

Lemma prefix_app (p s : string) : String.prefix p (p +:+ s) = true.
Proof.
  induction p as [|c p IH]; [apply prefix_nil|].
  change (String c p +:+ s) with (String c (p +:+ s)).
  rewrite prefix_cons, IH. by rewrite bool_decide_eq_true_2.
Qed.

(** A prefix test only looks at the first [length p] characters. *)
Lemma prefix_app_l (p s r : string) :
  String.length p ≤ String.length s →
  String.prefix p (s +:+ r) = String.prefix p s.
Proof.
  revert s. induction p as [|c p IH]; intros s Hlen.
  { by rewrite !prefix_nil. }
  destruct s as [|d s]; simpl in Hlen; [lia|].
  change (String d s +:+ r) with (String d (s +:+ r)).
  rewrite !prefix_cons, IH; [done | lia].
Qed.

Lemma prefix_split (p s : string) :
  String.prefix p s = true → s = p +:+ slice_from (String.length p) s.
Proof.
  revert s. induction p as [|c p IH]; intros s Hp; [done|].
  destruct s as [|d s]; [done|].
  rewrite prefix_cons in Hp. apply andb_prop in Hp as [Hc Hp].
  apply bool_decide_eq_true_1 in Hc as ->.
  change (String d p +:+ ?x) with (String d (p +:+ x)).
  simpl. f_equal. by apply IH.
Qed.

Lemma length_app_str (a b : string) :
  String.length (a +:+ b) = String.length a + String.length b.
Proof.
  induction a as [|c a IH]; [done|].
  change (String c a +:+ b) with (String c (a +:+ b)). simpl. by rewrite IH.
Qed.

Lemma app_assoc_str (a b c : string) : (a +:+ b) +:+ c = a +:+ b +:+ c.
Proof.
  induction a as [|x a IH]; [done|].
  change (String x a +:+ ?y) with (String x (a +:+ y)).
  by rewrite <- IH.
Qed.

Lemma slice_from_app (a b : string) : slice_from (String.length a) (a +:+ b) = b.
Proof. induction a as [|c a IH]; [by destruct b | exact IH]. Qed.

Lemma slice_to_app (a b : string) : slice_to (String.length a) (a +:+ b) = a.
Proof.
  induction a as [|c a IH]; [by destruct b|].
  change (String c a +:+ b) with (String c (a +:+ b)). simpl. by rewrite IH.
Qed.

Lemma slice_from_app_le (n : nat) (a b : string) :
  n ≤ String.length a → slice_from n (a +:+ b) = slice_from n a +:+ b.
Proof.
  revert a. induction n as [|n IH]; intros a Hn; [done|].
  destruct a as [|c a]; simpl in Hn; [lia|].
  apply IH. lia.
Qed.

Lemma length_slice_from (n : nat) (s : string) :
  String.length (slice_from n s) = String.length s - n.
Proof.
  revert s. induction n as [|n IH]; intros s; simpl; [lia|].
  destruct s; simpl; [done | apply IH].
Qed.

Lemma slice_from_add (n m : nat) (s : string) :
  slice_from (n + m) s = slice_from m (slice_from n s).
Proof.
  revert s. induction n as [|n IH]; intros s; [done|].
  destruct s; simpl; [by destruct m | apply IH].
Qed.

Lemma slice_to_from (n : nat) (s : string) : s = slice_to n s +:+ slice_from n s.
Proof.
  revert s. induction n as [|n IH]; intros s; [done|].
  destruct s as [|c s]; [done|].
  change (slice_to (S n) (String c s)) with (String c (slice_to n s)).
  change (String c (slice_to n s) +:+ ?x) with (String c (slice_to n s +:+ x)).
  simpl. f_equal. apply IH.
Qed.

Lemma length_slice_to (n : nat) (s : string) :
  n ≤ String.length s → String.length (slice_to n s) = n.
Proof.
  revert s. induction n as [|n IH]; intros s Hn; [done|].
  destruct s as [|c s]; simpl in Hn; [lia|]. simpl. f_equal. apply IH. lia.
Qed.

(** [str_find] returns the first position at which the pattern occurs. *)
Lemma str_find_Some (sub s : string) (i : nat) :
  str_find sub s = Some i ↔
  String.prefix sub (slice_from i s) = true ∧
  ∀ j, j < i → String.prefix sub (slice_from j s) = false.
Proof.
  revert i. induction s as [|c s IH]; intros i.
  - cbn [str_find]. destruct (String.prefix sub "") eqn:Hp; split.
    + intros [= <-]. split; [done | intros; lia].
    + intros [_ Hmin]. destruct i as [|i]; [done|].
      specialize (Hmin 0 ltac:(lia)). cbn [slice_from] in Hmin. congruence.
    + done.
    + intros [Hi _]. destruct i; cbn [slice_from] in Hi; congruence.
  - cbn [str_find]. destruct (String.prefix sub (String c s)) eqn:Hp; split.
    + intros [= <-]. split; [done | intros; lia].
    + intros [_ Hmin]. destruct i as [|i]; [done|].
      specialize (Hmin 0 ltac:(lia)). cbn [slice_from] in Hmin. congruence.
    + destruct (str_find sub s) as [k|] eqn:Hk; [|done].
      intros [= <-]. destruct (proj1 (IH k) eq_refl) as [Hk' Hmin]. split; [done|].
      intros [|j] Hj; [done|]. apply Hmin. lia.
    + intros [Hi Hmin]. destruct i as [|i]; [cbn [slice_from] in Hi; congruence|].
      assert (str_find sub s = Some i) as ->; [|done].
      apply IH. split; [done|]. intros j Hj. apply (Hmin (S j)). lia.
Qed.

Lemma str_find_None (sub s : string) :
  str_find sub s = None ↔ ∀ j, String.prefix sub (slice_from j s) = false.
Proof.
  induction s as [|c s IH].
  - cbn [str_find]. destruct (String.prefix sub "") eqn:Hp; split; try done.
    + intros Hall. specialize (Hall 0). cbn [slice_from] in Hall. congruence.
    + intros _ [|j]; done.
  - cbn [str_find]. destruct (String.prefix sub (String c s)) eqn:Hp; split; try done.
    + intros Hall. specialize (Hall 0). cbn [slice_from] in Hall. congruence.
    + destruct (str_find sub s); [done|]. intros _ [|j]; [done|]. by apply IH.
    + intros Hall. assert (str_find sub s = None) as ->; [|done].
      apply IH. intros j. apply (Hall (S j)).
Qed.

(** If the first occurrence of [p] in [a ++ p] is the final one, text that
    follows does not move it. *)
Lemma str_find_app (p a r : string) :
  str_find p (a +:+ p) = Some (String.length a) →
  str_find p (a +:+ p +:+ r) = Some (String.length a).
Proof.
  intros [_ Hmin]%str_find_Some. apply str_find_Some. split.
  - by rewrite slice_from_app, prefix_app.
  - intros j Hj. specialize (Hmin j Hj).
    rewrite <- app_assoc_str, slice_from_app_le by (rewrite length_app_str; lia).
    rewrite prefix_app_l; [done|].
    rewrite length_slice_from, length_app_str. lia.
Qed.

(** ** The metadata block *)

Lemma startswith_block (x : string) : startswith ("---" +:+ x) "---" = true.
Proof. apply prefix_app. Qed.

Lemma slice_from_block (x : string) : slice_from 3 ("---" +:+ x) = x.
Proof. apply (slice_from_app "---"). Qed.

Lemma slice_block (block rest : string) :
  slice 3 (String.length block + 3) ("---" +:+ block +:+ rest) = block.
Proof.
  unfold slice. rewrite <- app_assoc_str.
  replace (String.length block + 3) with (String.length ("---" +:+ block))
    by (rewrite length_app_str; simpl; lia).
  by rewrite slice_to_app, slice_from_block.
Qed.

Lemma slice_from_body (block rest : string) :
  slice_from (String.length block + 3 + 3) ("---" +:+ block +:+ "---" +:+ rest) = rest.
Proof.
  replace (String.length block + 3 + 3)
    with (String.length ("---" +:+ block +:+ "---"))
    by (rewrite !length_app_str; simpl; lia).
  replace ("---" +:+ block +:+ "---" +:+ rest)
    with (("---" +:+ block +:+ "---") +:+ rest)
    by (by rewrite !app_assoc_str).
  by rewrite slice_from_app.
Qed.

Lemma skip_char_LF (body : string) : skip_char (LF +:+ body) = skip_continuation body.
Proof. done. Qed.

Lemma skip_continuation_idemp (s : string) :
  skip_continuation (skip_continuation s) = skip_continuation s.
Proof.
  induction s as [|c s IH]; [done|]. cbn [skip_continuation].
  destruct (is_continuation c) eqn:Hc; [done|]. cbn [skip_continuation]. by rewrite Hc.
Qed.

Lemma skip_continuation_skip_char (s : string) :
  skip_continuation (skip_char s) = skip_char s.
Proof. destruct s; [done|]. apply skip_continuation_idemp. Qed.

Lemma find_end_idx_block (block rest : string) :
  str_find "---" (block +:+ "---") = Some (String.length block) →
  find_end_idx ("---" +:+ block +:+ "---" +:+ rest) = Ok (String.length block + 3).
Proof.
  intros Hfirst. unfold find_end_idx, str_index.
  rewrite slice_from_block, (str_find_app _ _ _ Hfirst). done.
Qed.

(** Every text in which [find_end_idx] succeeds splits around the first
    occurrence of the delimiter after the opening one. *)
Lemma find_end_idx_split (content : string) (end_idx : nat) :
  startswith content "---" = true →
  find_end_idx content = Ok end_idx →
  ∃ block rest,
    content = "---" +:+ block +:+ "---" +:+ rest ∧
    end_idx = String.length block + 3 ∧
    str_find "---" (block +:+ "---") = Some (String.length block).
Proof.
  intros Hstart Hend. unfold find_end_idx, str_index in Hend.
  destruct (str_find "---" (slice_from 3 content)) as [i|] eqn:Hfind; [|done].
  injection Hend as <-.
  apply prefix_split in Hstart. cbn [String.length] in Hstart.
  set (tail := slice_from 3 content) in *.
  apply str_find_Some in Hfind as [Hocc Hmin].
  assert (i ≤ String.length tail) as Hi.
  { destruct (decide (i ≤ String.length tail)) as [|Hgt]; [done|].
    assert (slice_from i tail = "") as Hnil.
    { destruct (slice_from i tail) eqn:Hs; [done|].
      pose proof (length_slice_from i tail) as Hlen. rewrite Hs in Hlen.
      simpl in Hlen. lia. }
    rewrite Hnil in Hocc. done. }
  pose proof (prefix_split _ _ Hocc) as Hsplit. cbn [String.length] in Hsplit.
  pose proof (slice_to_from i tail) as Htail.
  pose proof (length_slice_to i tail Hi) as Hlen.
  exists (slice_to i tail), (slice_from 3 (slice_from i tail)).
  split; [|split].
  - rewrite <- Hsplit, <- Htail. exact Hstart.
  - lia.
  - rewrite Hlen. apply str_find_Some. split.
    + rewrite <- Hlen at 1. by rewrite slice_from_app.
    + intros j Hj. specialize (Hmin j Hj).
      rewrite Htail, Hsplit in Hmin.
      rewrite <- app_assoc_str, slice_from_app_le in Hmin
        by (rewrite length_app_str, Hlen; lia).
      rewrite prefix_app_l in Hmin; [done|].
      rewrite length_slice_from, length_app_str, Hlen. simpl. lia.
Qed.

Section Codec.
Context `{Externals}.

Lemma parse_frontmatter_try_block (block rest : string) :
  str_find "---" (block +:+ "---") = Some (String.length block) →
  parse_frontmatter_try ("---" +:+ block +:+ "---" +:+ rest)
  = (frontmatter ← yaml_safe_load block;
     Ok (if truthy frontmatter then frontmatter else PDict [])).
Proof.
  intros Hfirst. unfold parse_frontmatter_try.
  rewrite (find_end_idx_block _ _ Hfirst). cbn [mbind result_bind].
  by rewrite slice_block.
Qed.

Lemma parse_frontmatter_block (block rest : string) :
  str_find "---" (block +:+ "---") = Some (String.length block) →
  parse_frontmatter ("---" +:+ block +:+ "---" +:+ rest)
  = match yaml_safe_load block with
    | Ok frontmatter => if truthy frontmatter then frontmatter else PDict []
    | Raise _ => PDict []
    end.
Proof.
  intros Hfirst. unfold parse_frontmatter.
  rewrite startswith_block, (parse_frontmatter_try_block _ _ Hfirst).
  cbn [negb mbind result_bind]. by destruct (yaml_safe_load block).
Qed.

Lemma update_frontmatter_tags_try_block (block rest : string) (new_tags : list pyval) :
  str_find "---" (block +:+ "---") = Some (String.length block) →
  update_frontmatter_tags_try ("---" +:+ block +:+ "---" +:+ rest) new_tags
  = (loaded ← yaml_safe_load block;
     tags ← py_sorted_set new_tags;
     frontmatter' ← py_setitem (if truthy loaded then loaded else PDict [])
                      (PStr "tags") (PList tags);
     new_frontmatter ← yaml_dump frontmatter';
     Ok ("---" +:+ LF +:+ new_frontmatter +:+ "---" +:+ LF +:+ skip_char rest)).
Proof.
  intros Hfirst. unfold update_frontmatter_tags_try.
  rewrite (find_end_idx_block _ _ Hfirst). cbn [mbind result_bind].
  by rewrite slice_block, slice_from_body.
Qed.

(** The cases of [parse_frontmatter]: it is a total function, and it yields
    the empty mapping unless the block loads to a value that is true. *)
Lemma parse_frontmatter_cases (content : string) :
  (startswith content "---" = false ∧ parse_frontmatter content = PDict []) ∨
  (startswith content "---" = true ∧ is_raise (find_end_idx content) = true ∧
   parse_frontmatter content = PDict []) ∨
  (∃ end_idx, startswith content "---" = true ∧ find_end_idx content = Ok end_idx ∧
     match yaml_safe_load (slice 3 end_idx content) with
     | Raise _ => parse_frontmatter content = PDict []
     | Ok loaded =>
         parse_frontmatter content = (if truthy loaded then loaded else PDict [])
     end).
Proof.
  unfold parse_frontmatter, parse_frontmatter_try.
  destruct (startswith content "---"); [|by left].
  right. destruct (find_end_idx content) as [end_idx|e]; [right|by left].
  exists end_idx. cbn [negb mbind result_bind].
  by destruct (yaml_safe_load (slice 3 end_idx content)).
Qed.

(** A block that loads to a mapping is returned as that mapping. *)
Lemma parse_frontmatter_mapping (content : string) (end_idx : nat) d :
  startswith content "---" = true →
  find_end_idx content = Ok end_idx →
  yaml_safe_load (slice 3 end_idx content) = Ok (PDict d) →
  parse_frontmatter content = PDict d.
Proof.
  intros Hstart Hend Hload. unfold parse_frontmatter, parse_frontmatter_try.
  rewrite Hstart, Hend. cbn [negb mbind result_bind]. rewrite Hload.
  by destruct d.
Qed.

Lemma update_frontmatter_tags_try_Raise (content : string) (new_tags : list pyval) e :
  update_failure content new_tags e →
  update_frontmatter_tags_try content new_tags = Raise e.
Proof.
  unfold update_frontmatter_tags_try.
  intros [e' Hend | end_idx e' Hend Hload | end_idx loaded e' Hend Hload Htags
         | end_idx loaded tags e' Hend Hload Htags Htrue Hnd ->
         | end_idx loaded tags e' Hend Hload Htags Hdump Hmap].
  - by rewrite Hend.
  - rewrite Hend. cbn [mbind result_bind]. by rewrite Hload.
  - rewrite Hend. cbn [mbind result_bind]. rewrite Hload. cbn [mbind result_bind].
    by rewrite Htags.
  - rewrite Hend. cbn [mbind result_bind]. rewrite Hload. cbn [mbind result_bind].
    rewrite Htags, Htrue. cbn [mbind result_bind].
    destruct loaded; try done. by destruct (Hnd d).
  - rewrite Hend. cbn [mbind result_bind]. rewrite Hload. cbn [mbind result_bind].
    rewrite Htags. cbn [mbind result_bind].
    destruct Hmap as [Hfalse | [d ->]].
    + rewrite Hfalse. cbn [py_setitem mbind result_bind].
      destruct loaded; try done; cbn [mbind result_bind];
        try (by rewrite Hdump).
      * destruct d; [|done]. by rewrite Hdump.
    + destruct (truthy (PDict d)) eqn:Ht; cbn [py_setitem mbind result_bind].
      * by rewrite Hdump.
      * destruct d; [|done]. by rewrite Hdump.
Qed.

(** The enumeration of failures is complete: the [try] raises only in one of
    the listed ways. *)
Lemma update_failure_complete (content : string) (new_tags : list pyval) e :
  update_frontmatter_tags_try content new_tags = Raise e →
  update_failure content new_tags e.
Proof.
  unfold update_frontmatter_tags_try.
  destruct (find_end_idx content) as [end_idx|e0] eqn:Hend; cbn [mbind result_bind].
  2: { intros [= <-]. by apply fail_unterminated. }
  destruct (yaml_safe_load (slice 3 end_idx content)) as [loaded|e0] eqn:Hload;
    cbn [mbind result_bind].
  2: { intros [= <-]. by eapply fail_load. }
  destruct (py_sorted_set new_tags) as [tags|e0] eqn:Htags; cbn [mbind result_bind].
  2: { intros [= <-]. by eapply fail_tags. }
  destruct (truthy loaded) eqn:Htrue.
  - destruct loaded as [| b | z | s | l | d]; cbn [py_setitem mbind result_bind];
      try (intros [= <-]; eapply fail_not_mapping; eauto; done).
    destruct (yaml_dump _) eqn:Hdump; [done|]. intros [= <-].
    eapply fail_dump; eauto.
  - cbn [py_setitem mbind result_bind].
    destruct (yaml_dump _) eqn:Hdump; [done|]. intros [= <-].
    eapply fail_dump; eauto.
    destruct loaded as [| b | z | s | l | d]; try done.
    all: try (destruct l; [done | discriminate]).
    destruct d; [done | discriminate].
Qed.

End Codec.

(** ** The codec: claims C1, C3, C6, C8 and C9 *)

Section CodecClaims.
Context `{Externals}.

(** C1. Whenever the [try] of [update_frontmatter_tags] fails, in any of the
    ways [update_failure] lists (no closing delimiter, a block that does not
    load, tags that cannot be sorted, a loaded value that is not a mapping, a
    mapping that cannot be dumped), the function returns the original text
    unchanged and prints the diagnostic; and the [try] fails in no other
    way. *)
Theorem update_frontmatter_tags_failure_keeps_document
    (content : string) (new_tags : list pyval) (e : exn) :
  startswith content "---" = true →
  update_failure content new_tags e →
  update_frontmatter_tags content new_tags = (content, [ErrorUpdatingFrontmatter e]) ∧
  (update_frontmatter_tags content new_tags).1 = content ∧
  (∀ e', update_frontmatter_tags_try content new_tags = Raise e' →
         update_failure content new_tags e').
Proof.
  intros Hstart Hfail.
  assert (update_frontmatter_tags content new_tags
          = (content, [ErrorUpdatingFrontmatter e])) as Hkeep.
  { unfold update_frontmatter_tags. rewrite Hstart. cbn [negb].
    by rewrite (update_frontmatter_tags_try_Raise _ _ _ Hfail). }
  split; [exact Hkeep|]. split.
  - by rewrite Hkeep.
  - intros e'. apply update_failure_complete.
Qed.

(** How the code delimits the block.  In a document that begins with [---]
    and in which the search succeeds, the block that parse and serialize
    read is the text between those three characters and the first later
    occurrence of the substring [---], wherever in its line that occurrence
    lies; what serialize keeps as the body starts one character after that
    occurrence. *)
Theorem metadata_block_is_up_to_first_occurrence
    (content : string) (end_idx : nat) (new_tags : list pyval) :
  startswith content "---" = true →
  find_end_idx content = Ok end_idx →
  ∃ block rest,
    content = "---" +:+ block +:+ "---" +:+ rest ∧
    end_idx = String.length block + 3 ∧
    (∀ j, j < String.length block →
          String.prefix "---" (slice_from j (block +:+ "---")) = false) ∧
    parse_frontmatter content
    = match yaml_safe_load block with
      | Ok frontmatter => if truthy frontmatter then frontmatter else PDict []
      | Raise _ => PDict []
      end ∧
    update_frontmatter_tags_try content new_tags
    = (loaded ← yaml_safe_load block;
       tags ← py_sorted_set new_tags;
       frontmatter' ← py_setitem (if truthy loaded then loaded else PDict [])
                        (PStr "tags") (PList tags);
       new_frontmatter ← yaml_dump frontmatter';
       Ok ("---" +:+ LF +:+ new_frontmatter +:+ "---" +:+ LF +:+ skip_char rest)).
Proof.
  intros Hstart Hend.
  destruct (find_end_idx_split _ _ Hstart Hend) as (block & rest & -> & -> & Hfirst).
  exists block, rest. split; [done|]. split; [done|]. split; [|split].
  - by apply str_find_Some in Hfirst as [_ Hmin].
  - by apply parse_frontmatter_block.
  - by apply update_frontmatter_tags_try_block.
Qed.

End CodecClaims.

Lemma update_frontmatter_tags_failure_keeps_document_witness :
  @update_frontmatter_tags (recorded no_facts) unterminated_doc [PStr "foo"]
  = (unterminated_doc, [ErrorUpdatingFrontmatter (ValueError "substring not found")]).
Proof.
  apply (@update_frontmatter_tags_failure_keeps_document (recorded no_facts)).
  - reflexivity.
  - apply fail_unterminated. reflexivity.
Defined.

Lemma metadata_block_is_up_to_first_occurrence_witness :
  ∃ block rest,
    mid_line_doc = "---" +:+ block +:+ "---" +:+ rest ∧
    12 = String.length block + 3 ∧
    (∀ j, j < String.length block →
          String.prefix "---" (slice_from j (block +:+ "---")) = false) ∧
    @parse_frontmatter (recorded no_facts) mid_line_doc
    = match @yaml_safe_load (recorded no_facts) block with
      | Ok frontmatter => if truthy frontmatter then frontmatter else PDict []
      | Raise _ => PDict []
      end ∧
    @update_frontmatter_tags_try (recorded no_facts) mid_line_doc []
    = (loaded ← @yaml_safe_load (recorded no_facts) block;
       tags ← py_sorted_set [];
       frontmatter' ← py_setitem (if truthy loaded then loaded else PDict [])
                        (PStr "tags") (PList tags);
       new_frontmatter ← @yaml_dump (recorded no_facts) frontmatter';
       Ok ("---" +:+ LF +:+ new_frontmatter +:+ "---" +:+ LF +:+ skip_char rest)).
Proof.
  apply (@metadata_block_is_up_to_first_occurrence (recorded no_facts) mid_line_doc 12 []);
    reflexivity.
Defined.

(** C8 at the failing input: in [mid_line_doc] the closing marker line is
    at position 17, but the block is taken to close at position 12, in the
    middle of the line [title: a---b].  Nor need the opening characters be a
    line of their own: [inline_open_doc] is read as having the block
    [title: x]. *)
Lemma closing_delimiter_recognized_mid_line :
  (is_marker_line mid_line_doc 17 ∧
   startswith mid_line_doc "---" = true ∧
   find_end_idx mid_line_doc = Ok 12 ∧
   ¬ is_marker_line mid_line_doc 12) ∧
  (startswith inline_open_doc "---" = true ∧
   slice 3 4 inline_open_doc ≠ LF ∧
   find_end_idx inline_open_doc = Ok 12 ∧
   slice 3 12 inline_open_doc = "title: x" +:+ LF).
Proof.
  split.
  - split; [|split; [|split]].
    + split; [reflexivity | right; reflexivity].
    + reflexivity.
    + reflexivity.
    + intros [Hline _]. vm_compute in Hline. discriminate.
  - split; [reflexivity|]. split; [|split; reflexivity].
    intros Hline. vm_compute in Hline. discriminate.
Qed.

(** What serializing [mid_line_doc] writes: the block read stops at [a], and
    the rest of the title's line and the marker line end up in the body. *)
Example mid_line_update :
  @update_frontmatter_tags (recorded mid_line_facts) mid_line_doc [PStr "x"]
  = ("---" +:+ LF +:+ "title: a" +:+ LF +:+ "tags:" +:+ LF +:+ "- x" +:+ LF +:+
     "---" +:+ LF +:+ LF +:+ "---" +:+ LF +:+ "body", []).
Proof. reflexivity. Qed.

(** C9 at the failing input [mid_line_doc].  The block between the marker
    lines holds the title [a---b]; serializing rewrites the document with
    the title [a], and parsing what was written finds [a]. *)
Lemma update_rewrites_title_at_mid_line :
  is_marker_line mid_line_doc 17 ∧
  @yaml_safe_load (recorded mid_line_facts) (slice 3 17 mid_line_doc)
  = Ok (PDict [(PStr "title", PStr "a---b")]) ∧
  @update_frontmatter_tags (recorded mid_line_facts) mid_line_doc [PStr "x"]
  = (mid_line_written, []) ∧
  @parse_frontmatter (recorded mid_line_facts) mid_line_written
  = PDict [(PStr "title", PStr "a"); (PStr "tags", PList [PStr "x"])] ∧
  dict_get (KStr "title") [(PStr "title", PStr "a"); (PStr "tags", PList [PStr "x"])]
  = Some (PStr "a") ∧
  PStr "a" ≠ PStr "a---b".
Proof.
  split; [split; [reflexivity | right; reflexivity]|].
  split; [reflexivity|]. split; [reflexivity|]. split; [reflexivity|].
  split; [reflexivity | discriminate].
Qed.

(** C3 at the failing input [tagged_mid_line_doc].  The block between the
    marker lines holds the tags [x], but the block is taken to close at
    position 12: parsing finds no tags, and serializing with the list that
    parsing gave writes a block without [x] and leaves the rest of the old
    block and its marker line in the body. *)
Lemma parse_then_update_fails_at_mid_line :
  is_marker_line tagged_mid_line_doc 27 ∧
  @yaml_safe_load (recorded mid_line_facts) (slice 3 27 tagged_mid_line_doc)
  = Ok (PDict [(PStr "title", PStr "a---b"); (PStr "tags", PList [PStr "x"])]) ∧
  find_end_idx tagged_mid_line_doc = Ok 12 ∧
  @parse_frontmatter (recorded mid_line_facts) tagged_mid_line_doc
  = PDict [(PStr "title", PStr "a")] ∧
  @get_current_tags (@parse_frontmatter (recorded mid_line_facts) tagged_mid_line_doc)
  = Ok (PList []) ∧
  @update_frontmatter_tags (recorded mid_line_facts) tagged_mid_line_doc []
  = (tagged_mid_line_written, []) ∧
  slice_from 31 tagged_mid_line_doc = "body" ∧
  skip_char (slice_from (12 + 3) tagged_mid_line_doc)
  = LF +:+ "tags: [x]" +:+ LF +:+ "---" +:+ LF +:+ "body".
Proof.
  split; [split; [reflexivity | right; reflexivity]|].
  repeat (split; [reflexivity|]). reflexivity.
Qed.

(** C6 at the failing input: the text between the two rules of [rule_doc]
    loads to a string, and [parse_frontmatter] returns that string, not a
    mapping; [add_tags] then raises on [frontmatter.get]. *)
Lemma parse_frontmatter_returns_non_mapping :
  @parse_frontmatter (recorded rule_facts) rule_doc = PStr "Intro paragraph" ∧
  @add_tags (recorded rule_facts) {[ "note.md" := Regular rule_doc true ]} "note.md"
  = (World {[ "note.md" := Regular rule_doc true ]}
       [ErrorProcessing "note.md" (AttributeError "'str' object has no attribute 'get'")],
     Some (AttributeError "'str' object has no attribute 'get'")).
Proof. split; reflexivity. Qed.

(** ** Sorting and deduplicating tags *)

Lemma as_strs_fmap (l : list string) : as_strs (PStr <$> l) = Some l.
Proof. induction l as [|x l IH]; [done|]. cbn. by rewrite IH. Qed.

Lemma as_strs_Some (l : list pyval) (ss : list string) :
  as_strs l = Some ss → l = PStr <$> ss.
Proof.
  revert ss. induction l as [|v l IH]; intros ss; [by intros [= <-]|].
  destruct v; try done. cbn.
  destruct (as_strs l) as [ss'|]; [|done].
  intros [= <-]. cbn. f_equal. by apply IH.
Qed.

Lemma elem_of_dedup (x : string) (l : list string) : x ∈ dedup l ↔ x ∈ l.
Proof.
  induction l as [|y l IH]; [done|]. cbn [dedup].
  rewrite !elem_of_cons, list_elem_of_filter, IH.
  destruct (decide (x = y)); tauto.
Qed.

Lemma NoDup_dedup (l : list string) : NoDup (dedup l).
Proof.
  induction l as [|y l IH]; cbn [dedup]; [constructor|].
  constructor.
  - rewrite list_elem_of_filter. by intros [Hne _].
  - by apply NoDup_filter.
Qed.

Lemma filter_key_strs (x : string) (l : list string) :
  filter (fun w => negb (key_is (KStr x) w)) (PStr <$> l)
  = PStr <$> filter (fun y => y ≠ x) l.
Proof.
  induction l as [|y l IH]; [done|].
  cbn [fmap list_fmap].
  rewrite (filter_cons (fun y => y ≠ x)).
  rewrite (filter_cons (fun w : pyval => Is_true (negb (key_is (KStr x) w)))).
  destruct (decide (y ≠ x)) as [Hne|Heq].
  - assert (key_is (KStr x) (PStr y) = false) as ->
      by (apply bool_decide_eq_false_2; congruence).
    cbn [negb]. rewrite decide_True by done. cbn [fmap list_fmap]. by rewrite IH.
  - apply dec_stable in Heq as ->.
    assert (key_is (KStr x) (PStr x) = true) as ->
      by (by apply bool_decide_eq_true_2).
    cbn [negb]. rewrite decide_False by (by intros ?). apply IH.
Qed.

Lemma py_set_strs (l : list string) : py_set (PStr <$> l) = Ok (PStr <$> dedup l).
Proof.
  induction l as [|x l IH]; [done|].
  cbn [fmap list_fmap py_set py_hash mbind result_bind dedup].
  change (list_fmap string pyval PStr l) with (PStr <$> l).
  rewrite IH. cbn [mbind result_bind]. by rewrite filter_key_strs.
Qed.

Lemma py_sorted_set_strs (l : list string) :
  py_sorted_set (PStr <$> l) = Ok (PStr <$> sorted_unique l).
Proof.
  unfold py_sorted_set. rewrite py_set_strs. cbn [mbind result_bind].
  unfold py_sorted. by rewrite as_strs_fmap.
Qed.

Lemma sorted_unique_Permutation (l : list string) : sorted_unique l ≡ₚ dedup l.
Proof. apply merge_sort_Permutation. Qed.

Lemma elem_of_sorted_unique (x : string) (l : list string) :
  x ∈ sorted_unique l ↔ x ∈ l.
Proof. by rewrite sorted_unique_Permutation, elem_of_dedup. Qed.

Lemma NoDup_sorted_unique (l : list string) : NoDup (sorted_unique l).
Proof. rewrite sorted_unique_Permutation. apply NoDup_dedup. Qed.

Lemma Sorted_sorted_unique (l : list string) :
  StronglySorted String.le (sorted_unique l).
Proof. apply StronglySorted_merge_sort; apply _. Qed.

(** Sorting and deduplicating is idempotent. *)
Lemma sorted_unique_idemp (l : list string) :
  sorted_unique (sorted_unique l) = sorted_unique l.
Proof.
  apply (StronglySorted_unique String.le); try apply Sorted_sorted_unique.
  apply NoDup_Permutation; try apply NoDup_sorted_unique.
  intros x. by rewrite !elem_of_sorted_unique.
Qed.

(** ** The merge step: claim C4 *)

(** C4. On string tags, [sorted(set(current_tags + new_tags))] is the list of
    the strings that occur in either list, each once, in increasing order:
    the set union, with strings compared exactly, so that [Paper] and
    [paper] are both kept. *)
Theorem merge_tags_is_sorted_union (current_tags new_tags : list string) :
  merge_tags (PList (PStr <$> current_tags)) new_tags
  = Ok (PStr <$> sorted_unique (current_tags ++ new_tags)) ∧
  StronglySorted String.le (sorted_unique (current_tags ++ new_tags)) ∧
  NoDup (sorted_unique (current_tags ++ new_tags)) ∧
  (∀ t, t ∈ sorted_unique (current_tags ++ new_tags) ↔ t ∈ current_tags ∨ t ∈ new_tags) ∧
  (list_to_set (sorted_unique (current_tags ++ new_tags)) : gset string)
  = list_to_set current_tags ∪ list_to_set new_tags ∧
  merge_tags (PList [PStr "Paper"]) ["paper"] = Ok [PStr "Paper"; PStr "paper"].
Proof.
  split; [|split; [|split; [|split; [|split]]]].
  - unfold merge_tags, py_add_list. cbn [mbind result_bind].
    by rewrite <- fmap_app, py_sorted_set_strs.
  - apply Sorted_sorted_unique.
  - apply NoDup_sorted_unique.
  - intros t. by rewrite elem_of_sorted_unique, elem_of_app.
  - apply set_eq. intros t.
    rewrite elem_of_union, !elem_of_list_to_set, elem_of_sorted_unique, elem_of_app.
    done.
  - reflexivity.
Qed.

(** ** Assigning the [tags] key *)

Lemma key_is_hash (h : hkey) (k : pyval) : key_is h k = true ↔ py_hash k = Ok h.
Proof.
  unfold key_is. destruct (py_hash k) as [h'|e]; [|done].
  rewrite bool_decide_eq_true. split; congruence.
Qed.

Lemma key_is_other (h h' : hkey) (k : pyval) :
  key_is h k = true → h' ≠ h → key_is h' k = false.
Proof.
  intros Hk%key_is_hash Hne. unfold key_is. rewrite Hk.
  apply bool_decide_eq_false_2. congruence.
Qed.

Lemma dict_get_set_tags (v : pyval) (d : list (pyval * pyval)) :
  dict_get (KStr "tags") (dict_set (PStr "tags") v d) = Some v.
Proof.
  induction d as [|[k' v'] d IH]; [done|].
  cbn [dict_set py_hash]. destruct (key_is (KStr "tags") k') eqn:Hk.
  - cbn [dict_get]. by rewrite Hk.
  - cbn [dict_get]. by rewrite Hk.
Qed.

Lemma dict_get_set_other (h : hkey) (v : pyval) (d : list (pyval * pyval)) :
  h ≠ KStr "tags" →
  dict_get h (dict_set (PStr "tags") v d) = dict_get h d.
Proof.
  intros Hne. induction d as [|[k' v'] d IH].
  - cbn. rewrite bool_decide_eq_false_2; [done | congruence].
  - cbn [dict_set py_hash]. destruct (key_is (KStr "tags") k') eqn:Hk.
    + cbn [dict_get]. by rewrite (key_is_other _ h _ Hk).
    + cbn [dict_get]. by rewrite IH.
Qed.

(** The entries under the other keys are the same entries, in the same
    order. *)
Lemma dict_set_tags_others (v : pyval) (d : list (pyval * pyval)) :
  filter (fun kv => key_is (KStr "tags") kv.1 = false) (dict_set (PStr "tags") v d)
  = filter (fun kv => key_is (KStr "tags") kv.1 = false) d.
Proof.
  induction d as [|[k' v'] d IH]; [done|].
  cbn [dict_set py_hash]. destruct (key_is (KStr "tags") k') eqn:Hk.
  - rewrite !filter_cons. cbn [fst]. rewrite Hk. by rewrite !decide_False by done.
  - rewrite !filter_cons. cbn [fst]. rewrite Hk. by rewrite !decide_True, IH by done.
Qed.

Section Serialize.
Context `{Externals}.

(** What [update_frontmatter_tags] writes when every step succeeds. *)
Lemma update_frontmatter_tags_mapping (content : string) (end_idx : nat)
    (d : list (pyval * pyval)) (new_tags tags : list pyval) (s : string) :
  startswith content "---" = true →
  find_end_idx content = Ok end_idx →
  yaml_safe_load (slice 3 end_idx content) = Ok (PDict d) →
  py_sorted_set new_tags = Ok tags →
  yaml_dump (PDict (dict_set (PStr "tags") (PList tags) d)) = Ok s →
  update_frontmatter_tags content new_tags
  = ("---" +:+ LF +:+ s +:+ "---" +:+ LF +:+ skip_char (slice_from (end_idx + 3) content), []).
Proof.
  intros Hstart Hend Hload Htags Hdump.
  unfold update_frontmatter_tags, update_frontmatter_tags_try.
  rewrite Hstart, Hend. cbn [negb mbind result_bind].
  rewrite Hload. cbn [mbind result_bind]. rewrite Htags. cbn [mbind result_bind].
  assert (py_setitem (if truthy (PDict d) then PDict d else PDict [])
            (PStr "tags") (PList tags)
          = Ok (PDict (dict_set (PStr "tags") (PList tags) d))) as ->.
  { by destruct d. }
  cbn [mbind result_bind]. by rewrite Hdump.
Qed.

(** Reading back a document that [update_frontmatter_tags] wrote, when the
    library loads what it dumped and the dump does not contain the
    delimiter. *)
Lemma parse_frontmatter_written (s rest : string) (d : list (pyval * pyval)) :
  str_find "---" ((LF +:+ s) +:+ "---") = Some (String.length (LF +:+ s)) →
  yaml_safe_load (LF +:+ s) = Ok (PDict d) →
  parse_frontmatter ("---" +:+ LF +:+ s +:+ "---" +:+ rest) = PDict d.
Proof.
  intros Hfirst Hload.
  replace ("---" +:+ LF +:+ s +:+ "---" +:+ rest)
    with ("---" +:+ (LF +:+ s) +:+ "---" +:+ rest)
    by (by rewrite !app_assoc_str).
  rewrite (parse_frontmatter_block _ _ Hfirst), Hload. by destruct d.
Qed.

End Serialize.

(** ** Parse, then serialize *)

Section RoundTrip.
Context `{Externals}.

(** Take a document whose block contains no [---] before the marker line
    that closes it, loads to a mapping and holds a list of tags.  Parsing it
    yields that list, and serializing the document with that list writes the
    dump of the same mapping with the tags sorted and deduplicated, every
    other key as it was, followed by a marker line and the body unchanged.
    When the library loads what it dumped, parsing the new document yields
    that mapping, and the body it delimits is the original body. *)
Theorem parse_then_update_same_tags
    (block body : string) (d : list (pyval * pyval)) (tags : list string) (s : string) :
  str_find "---" (block +:+ "---") = Some (String.length block) →
  skip_continuation body = body →
  yaml_safe_load block = Ok (PDict d) →
  dict_get (KStr "tags") d = Some (PList (PStr <$> tags)) →
  yaml_dump (PDict (dict_set (PStr "tags") (PList (PStr <$> sorted_unique tags)) d)) = Ok s →
  let content := "---" +:+ block +:+ "---" +:+ LF +:+ body in
  let d' := dict_set (PStr "tags") (PList (PStr <$> sorted_unique tags)) d in
  let updated := "---" +:+ LF +:+ s +:+ "---" +:+ LF +:+ body in
  get_current_tags (parse_frontmatter content) = Ok (PList (PStr <$> tags)) ∧
  update_frontmatter_tags content (PStr <$> tags) = (updated, []) ∧
  dict_get (KStr "tags") d' = Some (PList (PStr <$> sorted_unique tags)) ∧
  StronglySorted String.le (sorted_unique tags) ∧
  NoDup (sorted_unique tags) ∧
  (∀ t, t ∈ sorted_unique tags ↔ t ∈ tags) ∧
  (∀ k, k ≠ KStr "tags" → dict_get k d' = dict_get k d) ∧
  (str_find "---" ((LF +:+ s) +:+ "---") = Some (String.length (LF +:+ s)) →
   yaml_safe_load (LF +:+ s) = Ok (PDict d') →
   parse_frontmatter updated = PDict d' ∧
   find_end_idx updated = Ok (String.length (LF +:+ s) + 3) ∧
   skip_char (slice_from (String.length (LF +:+ s) + 3 + 3) updated) = body).
Proof.
  intros Hfirst Hbody Hload Htags Hdump content d' updated.
  assert (find_end_idx content = Ok (String.length block + 3)) as Hend
    by by apply find_end_idx_block.
  assert (parse_frontmatter content = PDict d) as Hparse.
  { apply (parse_frontmatter_mapping _ _ _ (startswith_block _) Hend).
    unfold content. by rewrite slice_block. }
  split; [|split; [|split; [|split; [|split; [|split; [|split]]]]]].
  - rewrite Hparse. cbn [get_current_tags]. rewrite Htags. by destruct tags.
  - rewrite (update_frontmatter_tags_mapping content _ d (PStr <$> tags)
               (PStr <$> sorted_unique tags) s (startswith_block _) Hend); try done.
    + unfold content. by rewrite slice_from_body, skip_char_LF, Hbody.
    + unfold content. by rewrite slice_block.
    + apply py_sorted_set_strs.
  - apply dict_get_set_tags.
  - apply Sorted_sorted_unique.
  - apply NoDup_sorted_unique.
  - intros t. apply elem_of_sorted_unique.
  - intros k Hk. by apply dict_get_set_other.
  - intros Hback Hreload.
    assert (updated = "---" +:+ (LF +:+ s) +:+ "---" +:+ LF +:+ body) as Hupd
      by (unfold updated; by rewrite !app_assoc_str).
    split; [|split].
    + by apply parse_frontmatter_written.
    + rewrite Hupd. by apply find_end_idx_block.
    + rewrite Hupd. by rewrite slice_from_body, skip_char_LF.
Qed.

(** When the block the code reads loads to a mapping and the new tags can
    be sorted and dumped, what is dumped is that mapping with only its
    [tags] entry replaced: every other key of it keeps its value (and here
    its place), and when the library loads what it dumped, parsing the new
    document finds those values again. *)
Theorem update_keeps_other_keys
    (content : string) (end_idx : nat) (d : list (pyval * pyval))
    (new_tags tags : list pyval) (s : string) :
  startswith content "---" = true →
  find_end_idx content = Ok end_idx →
  yaml_safe_load (slice 3 end_idx content) = Ok (PDict d) →
  py_sorted_set new_tags = Ok tags →
  yaml_dump (PDict (dict_set (PStr "tags") (PList tags) d)) = Ok s →
  let d' := dict_set (PStr "tags") (PList tags) d in
  let updated := "---" +:+ LF +:+ s +:+ "---" +:+ LF +:+
                 skip_char (slice_from (end_idx + 3) content) in
  update_frontmatter_tags content new_tags = (updated, []) ∧
  dict_get (KStr "tags") d' = Some (PList tags) ∧
  (∀ k, k ≠ KStr "tags" → dict_get k d' = dict_get k d) ∧
  filter (fun kv => key_is (KStr "tags") kv.1 = false) d'
  = filter (fun kv => key_is (KStr "tags") kv.1 = false) d ∧
  (str_find "---" ((LF +:+ s) +:+ "---") = Some (String.length (LF +:+ s)) →
   yaml_safe_load (LF +:+ s) = Ok (PDict d') →
   ∃ parsed, parse_frontmatter updated = PDict parsed ∧
             ∀ k, k ≠ KStr "tags" → dict_get k parsed = dict_get k d).
Proof.
  intros Hstart Hend Hload Htags Hdump d' updated.
  split; [|split; [|split; [|split]]].
  - by apply (update_frontmatter_tags_mapping content end_idx d new_tags tags s).
  - apply dict_get_set_tags.
  - intros k Hk. by apply dict_get_set_other.
  - apply dict_set_tags_others.
  - intros Hfirst Hback. exists d'. split.
    + by apply parse_frontmatter_written.
    + intros k Hk. by apply dict_get_set_other.
Qed.

End RoundTrip.

Lemma parse_then_update_same_tags_witness :
  @update_frontmatter_tags (recorded tagged_facts) tagged_doc
    [PStr "b"; PStr "a"; PStr "b"] = (retagged_doc, []) ∧
  @parse_frontmatter (recorded tagged_facts) retagged_doc = PDict retagged_mapping.
Proof.
  pose proof (@parse_then_update_same_tags (recorded tagged_facts)
                tagged_block "body text" tagged_mapping ["b"; "a"; "b"] retagged_block
                eq_refl eq_refl eq_refl eq_refl eq_refl) as Hw.
  cbv zeta in Hw. destruct Hw as (_ & Hupdate & _ & _ & _ & _ & _ & Hback).
  split; [exact Hupdate|]. exact (proj1 (Hback eq_refl eq_refl)).
Defined.

Lemma update_keeps_other_keys_witness :
  @update_frontmatter_tags (recorded tagged_facts) tagged_doc [PStr "b"; PStr "a"]
  = (retagged_doc, []) ∧
  dict_get (KStr "title") retagged_mapping = dict_get (KStr "title") tagged_mapping.
Proof.
  pose proof (@update_keeps_other_keys (recorded tagged_facts)
                tagged_doc 32 tagged_mapping [PStr "b"; PStr "a"]
                [PStr "a"; PStr "b"] retagged_block
                eq_refl eq_refl eq_refl eq_refl eq_refl) as Hw.
  cbv zeta in Hw. destruct Hw as (Hupdate & _ & Hother & _).
  split; [exact Hupdate|]. by apply (Hother (KStr "title")).
Defined.

(** ** The vault scan *)

Lemma elem_of_rglob_md (fs : filesystem) (p : string) :
  p ∈ rglob_md fs ↔ is_Some (fs !! p) ∧ endswith p ".md" = true.
Proof.
  unfold rglob_md. rewrite list_elem_of_filter, list_elem_of_fmap. split.
  - intros [Hmd [[p' f] [-> Hin%elem_of_map_to_list]]]. split; [by exists f | done].
  - intros [[f Hf] Hmd]. split; [done|]. exists (p, f). split; [done|].
    by apply elem_of_map_to_list.
Qed.

Lemma set_update_fst (all_tags : gset hkey) (tags : list pyval) :
  (set_update all_tags tags).1 = hashable_prefix tags ∪ all_tags.
Proof.
  revert all_tags. induction tags as [|v tags IH]; intros all_tags.
  - cbn. set_solver.
  - cbn [set_update hashable_prefix]. destruct (py_hash v) as [h|e].
    + rewrite IH. set_solver.
    + cbn. set_solver.
Qed.

Section Scan.
Context `{Externals}.

(** A file adds exactly the tags its document declares, whether or not the
    loop body raised on it. *)
Lemma collect_tags_fst (content : string) (all_tags : gset hkey) :
  (collect_tags content all_tags).1 = doc_tags content ∪ all_tags.
Proof.
  unfold collect_tags, doc_tags.
  destruct (parse_frontmatter content) as [| b | z | s | l | d] eqn:Hparse.
  - cbn. set_solver.
  - destruct b; cbn; set_solver.
  - cbn [truthy]. destruct (negb (negb (z =? 0)%Z)); cbn; set_solver.
  - cbn [truthy py_contains py_getitem].
    destruct (negb (negb (String.eqb s ""))); [cbn; set_solver|].
    destruct (str_contains s "tags"); cbn; set_solver.
  - cbn [truthy py_contains py_getitem]. destruct l as [|v l]; [cbn; set_solver|].
    cbn [negb]. destruct (existsb _ _); cbn; set_solver.
  - cbn [truthy py_contains py_getitem]. destruct d as [|kv d]; [cbn; set_solver|].
    cbn [negb]. destruct (dict_get (KStr "tags") (kv :: d)) as [v|] eqn:Hget.
    + rewrite bool_decide_eq_true_2 by by eexists.
      destruct v; cbn [fst]; try set_solver. apply set_update_fst.
    + rewrite bool_decide_eq_false_2 by (by intros [? ?]). cbn. set_solver.
Qed.

Lemma scan_file_fst (fs : filesystem) (st : gset hkey * list out_event) (md_file : string) :
  (scan_file fs st md_file).1 = file_tags fs md_file ∪ st.1.
Proof.
  unfold scan_file, file_tags. destruct (read_file fs md_file) as [content|e].
  - pose proof (collect_tags_fst content st.1) as Hc.
    destruct (collect_tags content st.1) as [all_tags [e|]]; exact Hc.
  - cbn. set_solver.
Qed.

Lemma foldl_scan_file_fst (fs : filesystem) (st : gset hkey * list out_event)
    (md_files : list string) :
  (foldl (scan_file fs) st md_files).1 = ⋃ (file_tags fs <$> md_files) ∪ st.1.
Proof.
  revert st. induction md_files as [|p md_files IH]; intros st.
  - cbn. set_solver.
  - cbn [foldl fmap list_fmap union_list foldr]. rewrite IH, scan_file_fst.
    change (list_fmap _ _ (file_tags fs) md_files) with (file_tags fs <$> md_files).
    set_solver.
Qed.

(** The vocabulary is the union, over the readable markdown files, of the
    tags their documents declare. *)
Lemma elem_of_get_all_vault_tags (fs : filesystem) (x : hkey) :
  x ∈ (get_all_vault_tags fs).1 ↔
  ∃ p content w, fs !! p = Some (Regular content w) ∧
                 endswith p ".md" = true ∧ x ∈ doc_tags content.
Proof.
  unfold get_all_vault_tags. rewrite foldl_scan_file_fst.
  rewrite elem_of_union, elem_of_union_list. split.
  - intros [(X & [p [-> Hp]]%list_elem_of_fmap & Hx) | Hx]; [|set_solver].
    apply elem_of_rglob_md in Hp as [_ Hmd].
    unfold file_tags, read_file in Hx.
    destruct (fs !! p) as [[content w|e]|] eqn:Hf; [|set_solver..].
    by exists p, content, w.
  - intros (p & content & w & Hf & Hmd & Hx). left.
    exists (file_tags fs p). split.
    + apply list_elem_of_fmap. exists p. split; [done|].
      apply elem_of_rglob_md. split; [by eexists | done].
    + unfold file_tags, read_file. by rewrite Hf.
Qed.

End Scan.

(** ** The vocabulary: claim C7 *)

Section ScanClaims.
Context `{Externals}.

Lemma doc_tags_empty_mapping (content : string) :
  parse_frontmatter content = PDict [] → doc_tags content = ∅.
Proof. intros Hparse. unfold doc_tags. by rewrite Hparse. Qed.

Lemma doc_tags_no_block (content : string) :
  startswith content "---" = false → doc_tags content = ∅.
Proof.
  intros Hstart. apply doc_tags_empty_mapping.
  unfold parse_frontmatter. by rewrite Hstart.
Qed.

(** C7. The scan is a total function of the vault.  Its result is the union,
    over the markdown files that can be read, of the tags their documents
    declare, a bare string counting as one tag.  A file that cannot be read,
    or whose block does not parse, changes nothing for the other files: the
    result is that of the vault without it.  A vault of three notes with
    tags [a, b], tags [b, c] and no metadata block yields {a, b, c}. *)
Theorem get_all_vault_tags_is_union (fs : filesystem) :
  (∀ x, x ∈ (get_all_vault_tags fs).1 ↔
        ∃ p content w, fs !! p = Some (Regular content w) ∧
                       endswith p ".md" = true ∧ x ∈ doc_tags content) ∧
  (∀ p e, (get_all_vault_tags (<[p := Unreadable e]> fs)).1
          = (get_all_vault_tags (delete p fs)).1) ∧
  (∀ p content w,
     parse_frontmatter content = PDict [] →
     (get_all_vault_tags (<[p := Regular content w]> fs)).1
     = (get_all_vault_tags (delete p fs)).1) ∧
  (∀ p1 p2 p3 c1 c2 c3 w1 w2 w3 d1 d2,
     p1 ≠ p2 → p1 ≠ p3 → p2 ≠ p3 →
     endswith p1 ".md" = true → endswith p2 ".md" = true → endswith p3 ".md" = true →
     parse_frontmatter c1 = PDict d1 →
     dict_get (KStr "tags") d1 = Some (PList [PStr "a"; PStr "b"]) →
     parse_frontmatter c2 = PDict d2 →
     dict_get (KStr "tags") d2 = Some (PList [PStr "b"; PStr "c"]) →
     startswith c3 "---" = false →
     (get_all_vault_tags
        {[ p1 := Regular c1 w1; p2 := Regular c2 w2; p3 := Regular c3 w3 ]}).1
     = {[ KStr "a"; KStr "b"; KStr "c" ]}).
Proof.
  split; [|split; [|split]].
  - apply elem_of_get_all_vault_tags.
  - intros p e. apply set_eq. intros x. rewrite !elem_of_get_all_vault_tags.
    split; intros (p' & content & w & Hf & Hmd & Hx); exists p', content, w.
    + apply lookup_insert_Some in Hf as [[_ [=]] | [Hne Hf]].
      split; [|done]. apply lookup_delete_Some. done.
    + apply lookup_delete_Some in Hf as [Hne Hf].
      split; [|done]. by rewrite lookup_insert_ne.
  - intros p content w Hparse. apply set_eq. intros x.
    rewrite !elem_of_get_all_vault_tags.
    split; intros (p' & content' & w' & Hf & Hmd & Hx).
    + apply lookup_insert_Some in Hf as [[_ [= <- <-]] | [Hne Hf]].
      { rewrite (doc_tags_empty_mapping _ Hparse) in Hx. set_solver. }
      exists p', content', w'. split; [|done]. by apply lookup_delete_Some.
    + apply lookup_delete_Some in Hf as [Hne Hf].
      exists p', content', w'. split; [|done]. by rewrite lookup_insert_ne.
  - intros p1 p2 p3 c1 c2 c3 w1 w2 w3 d1 d2 H12 H13 H23 Hm1 Hm2 Hm3
      Hp1 Ht1 Hp2 Ht2 Hs3.
    assert (doc_tags c1 = {[ KStr "a"; KStr "b" ]}) as Hd1.
    { unfold doc_tags. rewrite Hp1, Ht1. cbn. set_solver. }
    assert (doc_tags c2 = {[ KStr "b"; KStr "c" ]}) as Hd2.
    { unfold doc_tags. rewrite Hp2, Ht2. cbn. set_solver. }
    pose proof (doc_tags_no_block _ Hs3) as Hd3.
    apply set_eq. intros x. rewrite elem_of_get_all_vault_tags. split.
    + intros (p & content & w & Hf & Hmd & Hx).
      apply lookup_insert_Some in Hf as [[_ [= <- <-]] | [_ Hf]];
        [rewrite Hd1 in Hx; set_solver|].
      apply lookup_insert_Some in Hf as [[_ [= <- <-]] | [_ Hf]];
        [rewrite Hd2 in Hx; set_solver|].
      apply lookup_singleton_Some in Hf as [_ [= <- <-]].
      rewrite Hd3 in Hx. set_solver.
    + intros Hx. destruct (decide (x = KStr "c")) as [->|Hc].
      * exists p2, c2, w2. split; [|split; [done|]].
        -- rewrite lookup_insert_ne by done. by rewrite lookup_insert_eq.
        -- rewrite Hd2. set_solver.
      * exists p1, c1, w1. split; [|split; [done|]].
        -- by rewrite lookup_insert_eq.
        -- rewrite Hd1. set_solver.
Qed.

End ScanClaims.

Lemma get_all_vault_tags_is_union_witness :
  (@get_all_vault_tags (recorded vault_facts) vault_abc).1
  = {[ KStr "a"; KStr "b"; KStr "c" ]}.
Proof.
  pose proof (@get_all_vault_tags_is_union (recorded vault_facts) ∅) as (_ & _ & _ & Hw).
  apply (Hw "one.md" "dir/two.md" "three.md" doc_ab doc_bc doc_plain true true true
           [(PStr "tags", PList [PStr "a"; PStr "b"])]
           [(PStr "tags", PList [PStr "b"; PStr "c"])]);
    first [reflexivity | discriminate].
Defined.

(** ** The suggestion client: claim C5 *)

Section Client.
Context `{Externals}.

Lemma parse_response_Ok (response : list content_block) (tags : list string) :
  parse_response response = Ok tags ↔ accepted_reply response tags.
Proof.
  unfold accepted_reply. split.
  - destruct response as [|[ty text] [|c' r]]; try done. cbn [parse_response].
    cbn [block_type block_text].
    destruct (String.eqb ty "text") eqn:Hty; [|done]. cbn [negb].
    apply String.eqb_eq in Hty as ->.
    destruct (json_loads text) as [v|e] eqn:Hjson; [|done]. cbn [mbind result_bind].
    destruct v as [| | | |l|]; try done.
    destruct (as_strs l) as [ss|] eqn:Hss; [|done].
    intros [= <-]. exists text. split; [done|].
    by rewrite Hjson, (as_strs_Some _ _ Hss).
  - intros (text & -> & Hjson). cbn [parse_response block_type block_text].
    cbn. rewrite Hjson. cbn [mbind result_bind]. by rewrite as_strs_fmap.
Qed.

Lemma parse_response_deviating (response : list content_block) :
  (∀ tags, ¬ accepted_reply response tags) → ∃ e, parse_response response = Raise e.
Proof.
  intros Hdev. destruct (parse_response response) as [tags|e] eqn:Hp; [|by exists e].
  by apply parse_response_Ok, Hdev in Hp.
Qed.

(** [suggest_tags] returns a list only from a reply it accepts, and then the
    whole list of that reply. *)
Lemma suggest_tags_Ok (title file_contents : string) (current_tags : pyval)
    (vault_tags : gset hkey) (tags : list string) :
  suggest_tags title file_contents current_tags vault_tags = Ok tags →
  ∃ prompt response,
    create_tag_generation_prompt title file_contents current_tags vault_tags = Ok prompt ∧
    messages_create prompt = Ok response ∧
    accepted_reply response tags.
Proof.
  unfold suggest_tags.
  destruct (create_tag_generation_prompt _ _ _ _) as [prompt|e]; [|done].
  cbn [mbind result_bind].
  destruct (messages_create prompt) as [response|e] eqn:Hcall; [|done].
  cbn [mbind result_bind]. intros Hp%parse_response_Ok. by exists prompt, response.
Qed.

(** A run that raises leaves every file as it was. *)
Lemma add_tags_raise_keeps_files (fs : filesystem) (filepath : string) (w : world) (e : exn) :
  add_tags fs filepath = (w, Some e) → w_fs w = fs.
Proof.
  unfold add_tags, add_tags_try.
  destruct (read_file fs filepath) as [contents|e0]; [|by intros [= <- _]].
  destruct (get_current_tags _) as [current_tags|e0]; [|by intros [= <- _]].
  destruct (get_all_vault_tags fs) as [vault_tags scan_out].
  destruct (suggest_tags _ _ _ _) as [new_tags|e0]; [|by intros [= <- _]].
  destruct (merge_tags _ _) as [all_tags|e0]; [|by intros [= <- _]].
  destruct (update_frontmatter_tags _ _) as [updated_content update_out].
  destruct (write_file _ _ _) as [fs'|e0]; [done | by intros [= <- _]].
Qed.

(** Each deviation the specification lists, with the error it raises. *)
Lemma parse_response_cases :
  (∀ response, length response ≠ 1 →
     parse_response response = Raise (ValueError "Expected exactly one response from API")) ∧
  (∀ ty text, ty ≠ "text" →
     parse_response [Block ty text] = Raise (ValueError "Expected text response from API")) ∧
  (∀ text e, json_loads text = Raise e →
     parse_response [Block "text" text] = Raise e) ∧
  (∀ text v, json_loads text = Ok v → (∀ l, v ≠ PList l) →
     parse_response [Block "text" text]
     = Raise (ValueError "Invalid response format from API")) ∧
  (∀ text l v, json_loads text = Ok (PList l) → v ∈ l → (∀ tag, v ≠ PStr tag) →
     parse_response [Block "text" text]
     = Raise (ValueError "Invalid response format from API")).
Proof.
  split; [|split; [|split; [|split]]].
  - intros [|c [|c' r]] Hlen; cbn in Hlen; done.
  - intros ty text Hty. cbn [parse_response block_type].
    apply String.eqb_neq in Hty. by rewrite Hty.
  - intros text e Hjson. cbn. by rewrite Hjson.
  - intros text v Hjson Hnl. cbn. rewrite Hjson. cbn [mbind result_bind].
    destruct v; try done. by destruct (Hnl l).
  - intros text l v Hjson Hin Hns. cbn. rewrite Hjson. cbn [mbind result_bind].
    destruct (as_strs l) as [ss|] eqn:Hss; [|done].
    apply as_strs_Some in Hss as ->.
    apply list_elem_of_fmap in Hin as (tag & -> & _). by destruct (Hns tag).
Qed.

(** C5. The client accepts a reply exactly when it is one segment, of text
    type, whose text is a JSON array of strings, and then returns the whole
    array; any other reply (several segments or none, a segment that is not
    text, text that is not JSON, JSON that is not an array, an array with an
    element that is not a string) makes it raise.  When the reply the
    service gives to the prompt built for the target is not of the accepted
    form, [suggest_tags] raises the error of that reply, and [add_tags]
    prints it, raises it and leaves every file of the vault as it was; the
    same outcome, with some error, when no reply of the service is of that
    form. *)
Theorem deviating_reply_aborts (fs : filesystem) (filepath : string) :
  (∀ response tags, parse_response response = Ok tags ↔ accepted_reply response tags) ∧
  (∀ response, (∀ tags, ¬ accepted_reply response tags) →
               ∃ e, parse_response response = Raise e) ∧
  ((∀ response, length response ≠ 1 → is_raise (parse_response response) = true) ∧
   (∀ ty text, ty ≠ "text" → is_raise (parse_response [Block ty text]) = true) ∧
   (∀ text e, json_loads text = Raise e →
      is_raise (parse_response [Block "text" text]) = true) ∧
   (∀ text v, json_loads text = Ok v → (∀ l, v ≠ PList l) →
      is_raise (parse_response [Block "text" text]) = true) ∧
   (∀ text l v, json_loads text = Ok (PList l) → v ∈ l → (∀ tag, v ≠ PStr tag) →
      is_raise (parse_response [Block "text" text]) = true)) ∧
  ((∀ prompt response tags,
      messages_create prompt = Ok response → ¬ accepted_reply response tags) →
   ∃ out e, add_tags fs filepath = (World fs out, Some e)) ∧
  (∀ contents current_tags prompt response,
     read_file fs filepath = Ok contents →
     get_current_tags (parse_frontmatter contents) = Ok current_tags →
     create_tag_generation_prompt (path_stem filepath) contents current_tags
       (get_all_vault_tags fs).1 = Ok prompt →
     messages_create prompt = Ok response →
     (∀ tags, ¬ accepted_reply response tags) →
     ∃ e, parse_response response = Raise e ∧
          suggest_tags (path_stem filepath) contents current_tags
            (get_all_vault_tags fs).1 = Raise e ∧
          add_tags fs filepath
          = (World fs ((get_all_vault_tags fs).2 ++ [ErrorProcessing filepath e]),
             Some e)).
Proof.
  destruct parse_response_cases as (Hlen & Hty & Hjson & Hnl & Hns).
  split; [|split; [|split; [|split]]].
  - apply parse_response_Ok.
  - apply parse_response_deviating.
  - split; [|split; [|split; [|split]]].
    + intros response Hl. by rewrite (Hlen _ Hl).
    + intros ty text Ht. by rewrite (Hty _ _ Ht).
    + intros text e He. by rewrite (Hjson _ _ He).
    + intros text v Hv Hl. by rewrite (Hnl _ _ Hv Hl).
    + intros text l v Hl Hin Hv. by rewrite (Hns _ _ _ Hl Hin Hv).
  - intros Hdev.
    destruct (add_tags fs filepath) as [[fs' out] [e|]] eqn:Hrun.
    + apply add_tags_raise_keeps_files in Hrun as Hfs. cbn in Hfs. subst fs'.
      by exists out, e.
    + exfalso. revert Hrun. unfold add_tags, add_tags_try.
      destruct (read_file fs filepath) as [contents|e0]; [|done].
      destruct (get_current_tags _) as [current_tags|e0]; [|done].
      destruct (get_all_vault_tags fs) as [vault_tags scan_out].
      destruct (suggest_tags _ _ _ _) as [new_tags|e0] eqn:Hsuggest; [|done].
      apply suggest_tags_Ok in Hsuggest as (prompt & response & _ & Hcall & Hacc).
      by destruct (Hdev prompt response new_tags Hcall).
  - intros contents current_tags prompt response Hread Hcurrent Hprompt Hcall Hdev.
    destruct (parse_response_deviating _ Hdev) as [e He]. exists e.
    assert (suggest_tags (path_stem filepath) contents current_tags
              (get_all_vault_tags fs).1 = Raise e) as Hsuggest.
    { unfold suggest_tags. rewrite Hprompt. cbn [mbind result_bind].
      rewrite Hcall. cbn [mbind result_bind]. exact He. }
    split; [exact He|]. split; [exact Hsuggest|].
    unfold add_tags, add_tags_try. rewrite Hread, Hcurrent.
    destruct (get_all_vault_tags fs) as [vault_tags scan_out]. cbn [fst snd] in *.
    by rewrite Hsuggest.
Qed.

End Client.

Lemma deviating_reply_aborts_witness :
  ∃ e, @add_tags (recorded object_reply_facts)
         {[ "one.md" := Regular doc_ab true ]} "one.md"
       = (World {[ "one.md" := Regular doc_ab true ]} [ErrorProcessing "one.md" e],
          Some e).
Proof.
  destruct (@deviating_reply_aborts (recorded object_reply_facts)
              {[ "one.md" := Regular doc_ab true ]} "one.md") as (_ & _ & _ & _ & Hw).
  edestruct (Hw doc_ab (PList [PStr "a"; PStr "b"])) as (e & _ & _ & Hrun).
  - vm_compute. reflexivity.
  - reflexivity.
  - vm_compute. reflexivity.
  - reflexivity.
  - intros tags (text & Hresp & Hjson). injection Hresp as <-.
    vm_compute in Hjson. destruct tags; discriminate.
  - exists e. exact Hrun.
Defined.

(** The two replies the specification names: a JSON object, and an array
    containing a number.  The run raises and the note is as it was. *)
Example object_reply_run :
  @add_tags (recorded object_reply_facts) {[ "one.md" := Regular doc_ab true ]} "one.md"
  = (World {[ "one.md" := Regular doc_ab true ]}
       [ErrorProcessing "one.md" (ValueError "Invalid response format from API")],
     Some (ValueError "Invalid response format from API")).
Proof. reflexivity. Qed.

Example number_reply_run :
  @add_tags (recorded number_reply_facts) {[ "one.md" := Regular doc_ab true ]} "one.md"
  = (World {[ "one.md" := Regular doc_ab true ]}
       [ErrorProcessing "one.md" (ValueError "Invalid response format from API")],
     Some (ValueError "Invalid response format from API")).
Proof. reflexivity. Qed.

(** ** The orchestrator: claims C2 and C10 *)

Section Orchestrator.
Context `{Externals}.

(** C2. The note [e2e_doc] has the current tags [foo].  When the service
    answers the prompt built for it with the JSON array of [bar] and [baz],
    [add_tags] writes to the same
    path the document whose block is the dump of the mapping with tags
    [bar, baz, foo] and whose body is the original body, prints the success
    line and reports the added tags {bar, baz}; parsed again, the written
    document has the tags [bar, baz, foo] and delimits the body
    [body text]. *)
Theorem add_tags_end_to_end
    (fs : filesystem) (filepath : string) (s prompt reply : string) :
  fs !! filepath = Some (Regular e2e_doc true) →
  yaml_safe_load (LF +:+ "tags: foo" +:+ LF) = Ok (PDict [(PStr "tags", PStr "foo")]) →
  yaml_dump (PDict e2e_mapping) = Ok s →
  str_find "---" ((LF +:+ s) +:+ "---") = Some (String.length (LF +:+ s)) →
  yaml_safe_load (LF +:+ s) = Ok (PDict e2e_mapping) →
  create_tag_generation_prompt (path_stem filepath) e2e_doc (PList [PStr "foo"])
    (get_all_vault_tags fs).1 = Ok prompt →
  messages_create prompt = Ok [Block "text" reply] →
  json_loads reply = Ok (PList [PStr "bar"; PStr "baz"]) →
  let written := "---" +:+ LF +:+ s +:+ "---" +:+ LF +:+ "body text" in
  get_current_tags (parse_frontmatter e2e_doc) = Ok (PList [PStr "foo"]) ∧
  add_tags fs filepath
  = (World (<[filepath := Regular written true]> fs)
       ((get_all_vault_tags fs).2 ++
        [SuccessfullyUpdated filepath; AddedTags {[ "bar"; "baz" ]}]),
     None) ∧
  parse_frontmatter written = PDict e2e_mapping ∧
  dict_get (KStr "tags") e2e_mapping
  = Some (PList [PStr "bar"; PStr "baz"; PStr "foo"]) ∧
  find_end_idx e2e_doc = Ok 14 ∧
  slice_from (14 + 4) e2e_doc = "body text" ∧
  find_end_idx written = Ok (String.length (LF +:+ s) + 3) ∧
  slice_from (String.length (LF +:+ s) + 3 + 4) written = "body text" ∧
  skip_char (slice_from (14 + 3) e2e_doc) = "body text" ∧
  skip_char (slice_from (String.length (LF +:+ s) + 3 + 3) written) = "body text".
Proof.
  intros Hfile Hload Hdump Hfirst Hreload Hprompt Hcall Hjson written.
  assert (parse_frontmatter e2e_doc = PDict [(PStr "tags", PStr "foo")]) as Hparse.
  { by apply (parse_frontmatter_mapping e2e_doc 14). }
  assert (suggest_tags (path_stem filepath) e2e_doc (PList [PStr "foo"])
            (get_all_vault_tags fs).1 = Ok ["bar"; "baz"]) as Hsuggest.
  { unfold suggest_tags. rewrite Hprompt. cbn [mbind result_bind].
    rewrite Hcall. cbn. by rewrite Hjson. }
  clear Hprompt.
  assert (written = "---" +:+ (LF +:+ s) +:+ "---" +:+ LF +:+ "body text") as Hwritten
    by (unfold written; by rewrite !app_assoc_str).
  split; [rewrite Hparse; reflexivity|].
  split; [|split; [|split; [reflexivity|split; [reflexivity|split; [reflexivity|
    split; [|split; [|split; [reflexivity|]]]]]]]].
  - unfold add_tags, add_tags_try, read_file. rewrite Hfile, Hparse.
    cbn [get_current_tags dict_get key_is py_hash].
    rewrite bool_decide_eq_true_2 by done.
    destruct (get_all_vault_tags fs) as [vault_tags scan_out]. cbn [fst snd] in *.
    rewrite Hsuggest.
    assert (merge_tags (PList [PStr "foo"]) ["bar"; "baz"]
            = Ok [PStr "bar"; PStr "baz"; PStr "foo"]) as -> by reflexivity.
    rewrite (update_frontmatter_tags_mapping e2e_doc 14
               [(PStr "tags", PStr "foo")] _ [PStr "bar"; PStr "baz"; PStr "foo"]
               s); try done.
    unfold write_file. rewrite Hfile. reflexivity.
  - by apply parse_frontmatter_written.
  - rewrite Hwritten. by apply find_end_idx_block.
  - rewrite Hwritten.
    replace (String.length (LF +:+ s) + 3 + 4)
      with (String.length (LF +:+ s) + 3 + 3 + 1) by lia.
    by rewrite slice_from_add, slice_from_body.
  - rewrite Hwritten. by rewrite slice_from_body.
Qed.

(** C10, as the code has it.  When the block of the target note is a mapping
    whose [tags] key is null, the current tags are [None], not the empty
    list, which is the default only for an absent key.  [None] is rejected
    while the prompt is built, so [suggest_tags] raises a [TypeError]
    whatever the vault and the service are, and [add_tags] raises it and
    leaves every file as it was; the merge step is not reached, and would
    raise a [TypeError] as well. *)
Theorem null_tags_abort
    (fs : filesystem) (filepath contents : string) (d : list (pyval * pyval)) :
  read_file fs filepath = Ok contents →
  parse_frontmatter contents = PDict d →
  dict_get (KStr "tags") d = Some PNone →
  get_current_tags (parse_frontmatter contents) = Ok PNone ∧
  (∀ d0, dict_get (KStr "tags") d0 = None → get_current_tags (PDict d0) = Ok (PList [])) ∧
  (∀ title vault_tags,
     ∃ msg, suggest_tags title contents PNone vault_tags = Raise (TypeError msg)) ∧
  (∀ new_tags, ∃ msg, merge_tags PNone new_tags = Raise (TypeError msg)) ∧
  ∃ out msg, add_tags fs filepath = (World fs out, Some (TypeError msg)).
Proof.
  intros Hread Hparse Hnull.
  assert (∀ title vault_tags,
            ∃ msg, suggest_tags title contents PNone vault_tags = Raise (TypeError msg))
    as Hsuggest.
  { intros title vault_tags. unfold suggest_tags, create_tag_generation_prompt.
    destruct (join_sorted vault_tags) as [vault|e] eqn:Hjoin.
    - by eexists.
    - unfold join_sorted in Hjoin. destruct (mapM _ _); [done|].
      injection Hjoin as <-. by eexists. }
  split; [|split; [|split; [done|split]]].
  - rewrite Hparse. cbn [get_current_tags]. by rewrite Hnull.
  - intros d0 Habsent. cbn [get_current_tags]. by rewrite Habsent.
  - intros new_tags. by eexists.
  - unfold add_tags, add_tags_try. rewrite Hread, Hparse.
    cbn [get_current_tags]. rewrite Hnull.
    destruct (get_all_vault_tags fs) as [vault_tags scan_out].
    destruct (Hsuggest (path_stem filepath) vault_tags) as [msg ->].
    by eexists _, _.
Qed.

End Orchestrator.

Lemma add_tags_end_to_end_witness :
  @add_tags (recorded e2e_facts) {[ "note.md" := Regular e2e_doc true ]} "note.md"
  = (World {[ "note.md" := Regular e2e_written true ]}
       [SuccessfullyUpdated "note.md"; AddedTags {[ "bar"; "baz" ]}],
     None) ∧
  @parse_frontmatter (recorded e2e_facts) e2e_written = PDict e2e_mapping.
Proof.
  pose proof (@add_tags_end_to_end (recorded e2e_facts)
                {[ "note.md" := Regular e2e_doc true ]} "note.md" e2e_dump
                _ e2e_reply
                eq_refl eq_refl eq_refl eq_refl eq_refl eq_refl eq_refl eq_refl) as Hw.
  cbv zeta in Hw. destruct Hw as (_ & Hrun & Hparse & _).
  split; [|exact Hparse]. rewrite Hrun. reflexivity.
Defined.

Lemma null_tags_abort_witness :
  ∃ out msg,
    @add_tags (recorded null_tags_facts)
      {[ "note.md" := Regular null_tags_doc true ]} "note.md"
    = (World {[ "note.md" := Regular null_tags_doc true ]} out, Some (TypeError msg)).
Proof.
  apply (@null_tags_abort (recorded null_tags_facts)
           {[ "note.md" := Regular null_tags_doc true ]} "note.md" null_tags_doc
           [(PStr "tags", PNone)]); vm_compute; reflexivity.
Defined.

(** C10, as stated, fails: the null value does not reach the merge step.
    With a service that would answer with a well-formed suggestion,
    [suggest_tags] raises on [None] before any request is made, and that is
    the exception [add_tags] raises. *)
Lemma null_tags_rejected_before_merge :
  let fs : filesystem := {[ "note.md" := Regular null_tags_doc true ]} in
  @get_current_tags (@parse_frontmatter (recorded null_tags_facts) null_tags_doc)
  = Ok PNone ∧
  @messages_create (recorded null_tags_facts) "" = Ok [Block "text" e2e_reply] ∧
  @parse_response (recorded null_tags_facts) [Block "text" e2e_reply]
  = Ok ["bar"; "baz"] ∧
  @suggest_tags (recorded null_tags_facts) "note" null_tags_doc PNone
    (@get_all_vault_tags (recorded null_tags_facts) fs).1
  = Raise (TypeError "can only join an iterable") ∧
  ¬ (∃ new_tags,
       @suggest_tags (recorded null_tags_facts) "note" null_tags_doc PNone
         (@get_all_vault_tags (recorded null_tags_facts) fs).1 = Ok new_tags) ∧
  @add_tags (recorded null_tags_facts) fs "note.md"
  = (World fs [ErrorProcessing "note.md" (TypeError "can only join an iterable")],
     Some (TypeError "can only join an iterable")).
Proof.
  cbv zeta. split; [reflexivity|]. split; [reflexivity|]. split; [reflexivity|].
  split; [reflexivity|]. split; [|reflexivity].
  intros [new_tags Hok]. vm_compute in Hok. discriminate.
Qed.

(** * Further properties of the code *)

(** ** Bounds of the closing delimiter *)

Lemma slice_from_slice_to (n m : nat) (s : string) :
  slice_from n (slice_to (n + m) s) = slice_to m (slice_from n s).
Proof.
  revert s. induction n as [|n IH]; intros s; [done|].
  destruct s as [|c s]; [by destruct m|]. apply IH.
Qed.

Lemma prefix_length (p s : string) :
  String.prefix p s = true → String.length p ≤ String.length s.
Proof.
  intros Hp%prefix_split. rewrite Hp, length_app_str. lia.
Qed.

(** The position [find_end_idx] returns lies after the opening delimiter,
    the three characters found there are the delimiter and lie within the
    text, and the block handed to the YAML parser has [end_idx - 3]
    characters. *)
Theorem find_end_idx_bounds (content : string) (end_idx : nat) :
  find_end_idx content = Ok end_idx →
  3 ≤ end_idx ∧
  end_idx + 3 ≤ String.length content ∧
  slice end_idx (end_idx + 3) content = "---" ∧
  String.length (slice 3 end_idx content) = end_idx - 3.
Proof.
  unfold find_end_idx, str_index.
  destruct (str_find "---" (slice_from 3 content)) as [i|] eqn:Hfind; [|done].
  intros [= <-]. apply str_find_Some in Hfind as [Hocc _].
  pose proof (prefix_length _ _ Hocc) as Hlen.
  rewrite !length_slice_from in Hlen. cbn [String.length] in Hlen.
  assert (slice_from (i + 3) content = slice_from i (slice_from 3 content)) as Hfrom
    by (by rewrite (Nat.add_comm i 3), slice_from_add).
  split; [lia|]. split; [lia|]. split.
  - unfold slice. rewrite slice_from_slice_to, Hfrom.
    rewrite (prefix_split _ _ Hocc). apply (slice_to_app "---").
  - unfold slice. rewrite length_slice_from, length_slice_to; lia.
Qed.

Lemma find_end_idx_bounds_witness :
  3 ≤ 14 ∧ 14 + 3 ≤ String.length e2e_doc ∧
  slice 14 (14 + 3) e2e_doc = "---" ∧
  String.length (slice 3 14 e2e_doc) = 14 - 3.
Proof. apply (find_end_idx_bounds e2e_doc 14). reflexivity. Defined.

(** ** The codec *)

Lemma sorted_unique_same_elements (l l' : list string) :
  (∀ t, t ∈ l ↔ t ∈ l') → sorted_unique l = sorted_unique l'.
Proof.
  intros Hsame. apply (StronglySorted_unique String.le); try apply Sorted_sorted_unique.
  apply NoDup_Permutation; try apply NoDup_sorted_unique.
  intros t. by rewrite !elem_of_sorted_unique.
Qed.

Lemma dict_set_tags_idemp (v : pyval) (d : list (pyval * pyval)) :
  dict_set (PStr "tags") v (dict_set (PStr "tags") v d) = dict_set (PStr "tags") v d.
Proof.
  induction d as [|[k' v'] d IH].
  - cbn. by rewrite bool_decide_eq_true_2.
  - cbn [dict_set py_hash]. destruct (key_is (KStr "tags") k') eqn:Hk.
    + cbn [dict_set py_hash]. by rewrite Hk.
    + cbn [dict_set py_hash]. by rewrite Hk, IH.
Qed.

Section CodecFurther.
Context `{Externals}.

(** What follows the closing delimiter has no influence on the metadata
    that [parse_frontmatter] returns. *)
Theorem parse_frontmatter_ignores_body (block rest rest' : string) :
  str_find "---" (block +:+ "---") = Some (String.length block) →
  parse_frontmatter ("---" +:+ block +:+ "---" +:+ rest)
  = parse_frontmatter ("---" +:+ block +:+ "---" +:+ rest').
Proof.
  intros Hfirst. by rewrite !(parse_frontmatter_block _ _ Hfirst).
Qed.

(** [parse_frontmatter] never returns a false value other than the empty
    mapping: not [None], not [0], not an empty string or list. *)
Theorem parse_frontmatter_true_or_empty (content : string) :
  parse_frontmatter content = PDict [] ∨ truthy (parse_frontmatter content) = true.
Proof.
  destruct (parse_frontmatter_cases content) as [[_ ->] | [(_ & _ & ->) | (e & _ & _ & Hc)]];
    [by left..|].
  destruct (yaml_safe_load (slice 3 e content)) as [loaded|x]; [|by left].
  rewrite Hc. destruct (truthy loaded) eqn:Ht; [by right | by left].
Qed.

(** The text [update_frontmatter_tags] returns always begins with the
    delimiter, whichever branch is taken. *)
Theorem update_frontmatter_tags_starts_with_delimiter
    (content : string) (new_tags : list pyval) :
  startswith (update_frontmatter_tags content new_tags).1 "---" = true.
Proof.
  unfold update_frontmatter_tags.
  destruct (startswith content "---") eqn:Hstart; cbn [negb].
  - destruct (update_frontmatter_tags_try content new_tags) as [updated|e] eqn:Htry;
      [|done].
    cbn [fst]. revert Htry. unfold update_frontmatter_tags_try.
    destruct (find_end_idx content); [|done]. cbn [mbind result_bind].
    destruct (yaml_safe_load _); [|done]. cbn [mbind result_bind].
    destruct (py_sorted_set new_tags); [|done]. cbn [mbind result_bind].
    destruct (py_setitem _ _ _); [|done]. cbn [mbind result_bind].
    destruct (yaml_dump _); [|done]. cbn [mbind result_bind].
    intros [= <-]. apply startswith_block.
  - apply startswith_block.
Qed.

(** When [update_frontmatter_tags] rewrites a block, what it writes after
    the new closing line is the text that followed the closing delimiter
    without its first character.  After a marker line that character is the
    newline and the body is kept whole; when the body follows the delimiter
    directly, as in [---body], its first character is lost. *)
Theorem update_frontmatter_tags_skips_one_character
    (block rest updated : string) (new_tags : list pyval) :
  str_find "---" (block +:+ "---") = Some (String.length block) →
  update_frontmatter_tags_try ("---" +:+ block +:+ "---" +:+ rest) new_tags = Ok updated →
  (∃ s, updated = "---" +:+ LF +:+ s +:+ "---" +:+ LF +:+ skip_char rest) ∧
  (∀ c body, rest = String c body → skip_continuation body = body →
             ∃ s, updated = "---" +:+ LF +:+ s +:+ "---" +:+ LF +:+ body).
Proof.
  intros Hfirst. rewrite (update_frontmatter_tags_try_block _ _ _ Hfirst).
  destruct (yaml_safe_load block); [|done]. cbn [mbind result_bind].
  destruct (py_sorted_set new_tags); [|done]. cbn [mbind result_bind].
  destruct (py_setitem _ _ _); [|done]. cbn [mbind result_bind].
  destruct (yaml_dump _) as [s|]; [|done]. cbn [mbind result_bind].
  intros [= <-]. split; [by exists s|].
  intros c body -> Hbody. exists s. cbn [skip_char]. by rewrite Hbody.
Qed.

(** On a document with a block, the result depends only on the set of the
    tags given: their order and repetitions do not matter. *)
Theorem update_frontmatter_tags_tag_set (content : string) (tags tags' : list string) :
  startswith content "---" = true →
  (∀ t, t ∈ tags ↔ t ∈ tags') →
  update_frontmatter_tags content (PStr <$> tags)
  = update_frontmatter_tags content (PStr <$> tags').
Proof.
  intros Hstart Hsame. unfold update_frontmatter_tags, update_frontmatter_tags_try.
  rewrite Hstart. cbn [negb].
  destruct (find_end_idx content); [|done]. cbn [mbind result_bind].
  destruct (yaml_safe_load _); [|done]. cbn [mbind result_bind].
  by rewrite !py_sorted_set_strs, (sorted_unique_same_elements _ _ Hsame).
Qed.

(** Serializing is idempotent: when the library loads what it dumped,
    applying [update_frontmatter_tags] with the same tags to its own output
    changes nothing. *)
Theorem update_frontmatter_tags_idempotent
    (content : string) (end_idx : nat) (d : list (pyval * pyval))
    (new_tags tags : list pyval) (s : string) :
  startswith content "---" = true →
  find_end_idx content = Ok end_idx →
  yaml_safe_load (slice 3 end_idx content) = Ok (PDict d) →
  py_sorted_set new_tags = Ok tags →
  yaml_dump (PDict (dict_set (PStr "tags") (PList tags) d)) = Ok s →
  str_find "---" ((LF +:+ s) +:+ "---") = Some (String.length (LF +:+ s)) →
  yaml_safe_load (LF +:+ s) = Ok (PDict (dict_set (PStr "tags") (PList tags) d)) →
  update_frontmatter_tags (update_frontmatter_tags content new_tags).1 new_tags
  = update_frontmatter_tags content new_tags.
Proof.
  intros Hstart Hend Hload Htags Hdump Hfirst Hreload.
  rewrite (update_frontmatter_tags_mapping content end_idx d new_tags tags s) by done.
  cbn [fst]. set (body := skip_char (slice_from (end_idx + 3) content)).
  assert ("---" +:+ LF +:+ s +:+ "---" +:+ LF +:+ body
          = "---" +:+ (LF +:+ s) +:+ "---" +:+ LF +:+ body) as Hshape
    by (by rewrite !app_assoc_str).
  rewrite (update_frontmatter_tags_mapping _ (String.length (LF +:+ s) + 3)
             (dict_set (PStr "tags") (PList tags) d) new_tags tags s).
  - rewrite Hshape, slice_from_body, skip_char_LF.
    unfold body. by rewrite skip_continuation_skip_char.
  - apply startswith_block.
  - rewrite Hshape. by apply find_end_idx_block.
  - rewrite Hshape. by rewrite slice_block.
  - done.
  - by rewrite dict_set_tags_idemp.
Qed.

End CodecFurther.

Lemma parse_frontmatter_ignores_body_witness :
  @parse_frontmatter (recorded tagged_facts) ("---" +:+ tagged_block +:+ "---" +:+ LF +:+ "body text")
  = @parse_frontmatter (recorded tagged_facts) ("---" +:+ tagged_block +:+ "---" +:+ "").
Proof.
  apply (@parse_frontmatter_ignores_body (recorded tagged_facts)). reflexivity.
Defined.

Lemma update_frontmatter_tags_skips_one_character_witness :
  ∃ s, "---" +:+ LF +:+ "a: 1" +:+ LF +:+ "tags:" +:+ LF +:+ "- x" +:+ LF +:+
       "---" +:+ LF +:+ "ody"
       = "---" +:+ LF +:+ s +:+ "---" +:+ LF +:+ "ody".
Proof.
  destruct (@update_frontmatter_tags_skips_one_character (recorded same_line_facts)
              (LF +:+ "a: 1" +:+ LF) "body"
              ("---" +:+ LF +:+ "a: 1" +:+ LF +:+ "tags:" +:+ LF +:+ "- x" +:+ LF +:+
               "---" +:+ LF +:+ "ody")
              [PStr "x"] eq_refl eq_refl) as [_ Hlost].
  apply (Hlost "b"%char "ody"); reflexivity.
Defined.

(** The note [same_line_doc], serialized with the tag [x]: the [b] of
    [body] is gone. *)
Example same_line_update :
  @update_frontmatter_tags (recorded same_line_facts) same_line_doc [PStr "x"]
  = ("---" +:+ LF +:+ "a: 1" +:+ LF +:+ "tags:" +:+ LF +:+ "- x" +:+ LF +:+
     "---" +:+ LF +:+ "ody", []).
Proof. reflexivity. Qed.

Lemma update_frontmatter_tags_tag_set_witness :
  @update_frontmatter_tags (recorded tagged_facts) tagged_doc (PStr <$> ["b"; "a"; "b"])
  = @update_frontmatter_tags (recorded tagged_facts) tagged_doc (PStr <$> ["a"; "b"]).
Proof.
  apply (@update_frontmatter_tags_tag_set (recorded tagged_facts)); [reflexivity|].
  intros t. rewrite !elem_of_cons, !elem_of_nil. tauto.
Defined.

Lemma update_frontmatter_tags_idempotent_witness :
  @update_frontmatter_tags (recorded tagged_facts)
    (@update_frontmatter_tags (recorded tagged_facts) tagged_doc [PStr "b"; PStr "a"]).1
    [PStr "b"; PStr "a"]
  = @update_frontmatter_tags (recorded tagged_facts) tagged_doc [PStr "b"; PStr "a"].
Proof.
  apply (@update_frontmatter_tags_idempotent (recorded tagged_facts)
           tagged_doc 32 tagged_mapping [PStr "b"; PStr "a"] [PStr "a"; PStr "b"]
           retagged_block); reflexivity.
Defined.

(** ** The merge and the report *)

(** The merge does not depend on which list is the current one, and merging
    its own result again, with the same suggestions or with none, changes
    nothing. *)
Theorem merge_tags_commutative_idempotent (current_tags new_tags : list string) :
  merge_tags (PList (PStr <$> current_tags)) new_tags
  = merge_tags (PList (PStr <$> new_tags)) current_tags ∧
  ∃ merged,
    merge_tags (PList (PStr <$> current_tags)) new_tags = Ok (PStr <$> merged) ∧
    merge_tags (PList (PStr <$> merged)) new_tags = Ok (PStr <$> merged) ∧
    merge_tags (PList (PStr <$> merged)) [] = Ok (PStr <$> merged).
Proof.
  assert (∀ a b, merge_tags (PList (PStr <$> a)) b = Ok (PStr <$> sorted_unique (a ++ b)))
    as Hmerge.
  { intros a b. unfold merge_tags, py_add_list. cbn [mbind result_bind].
    by rewrite <- fmap_app, py_sorted_set_strs. }
  split.
  - rewrite !Hmerge. do 2 f_equal. apply sorted_unique_same_elements.
    intros t. rewrite !elem_of_app. tauto.
  - exists (sorted_unique (current_tags ++ new_tags)). rewrite !Hmerge.
    split; [done|]. split; do 2 f_equal.
    + apply sorted_unique_same_elements. intros t.
      rewrite !elem_of_app, elem_of_sorted_unique, elem_of_app. tauto.
    + rewrite app_nil_r. apply sorted_unique_idemp.
Qed.

Lemma existsb_key_strs (t : string) (l : list string) :
  existsb (key_is (KStr t)) (PStr <$> l) = false ↔ t ∉ l.
Proof.
  induction l as [|c l IH].
  - split; [intros _; apply not_elem_of_nil | done].
  - cbn [fmap list_fmap existsb]. rewrite orb_false_iff, not_elem_of_cons.
    change (list_fmap string pyval PStr l) with (PStr <$> l). rewrite IH.
    assert (key_is (KStr t) (PStr c) = false ↔ t ≠ c) as ->; [|tauto].
    unfold key_is. cbn [py_hash]. rewrite bool_decide_eq_false. split; congruence.
Qed.

(** The tags reported as added are the suggestions that were not current
    tags; together with the current tags they make up exactly the merged
    tags, and no current tag is among them. *)
Theorem added_tags_complement (current_tags new_tags : list string) :
  (∀ t, t ∈ added_tags new_tags (PStr <$> current_tags) ↔ t ∈ new_tags ∧ t ∉ current_tags) ∧
  (list_to_set (sorted_unique (current_tags ++ new_tags)) : gset string)
  = list_to_set current_tags ∪ added_tags new_tags (PStr <$> current_tags) ∧
  added_tags new_tags (PStr <$> current_tags) ## list_to_set current_tags.
Proof.
  assert (∀ t, t ∈ added_tags new_tags (PStr <$> current_tags)
               ↔ t ∈ new_tags ∧ t ∉ current_tags) as Hadded.
  { intros t. unfold added_tags. rewrite elem_of_list_to_set, list_elem_of_filter.
    rewrite existsb_key_strs. tauto. }
  split; [exact Hadded|]. split.
  - apply set_eq. intros t.
    rewrite elem_of_union, Hadded, !elem_of_list_to_set, elem_of_sorted_unique, elem_of_app.
    destruct (decide (t ∈ current_tags)); tauto.
  - intros t Ht Hcur. apply Hadded in Ht as [_ Hn].
    by apply elem_of_list_to_set in Hcur.
Qed.

(** ** The vault scan *)

Lemma set_update_snd (all_tags : gset hkey) (tags : list pyval) :
  (set_update all_tags tags).2 = (set_update ∅ tags).2.
Proof.
  revert all_tags. generalize (∅ : gset hkey).
  induction tags as [|v tags IH]; intros acc acc'; [done|].
  cbn [set_update]. destruct (py_hash v); [apply IH | done].
Qed.

Lemma set_update_strs (all_tags : gset hkey) (tags : list string) :
  (set_update all_tags (PStr <$> tags)).2 = None.
Proof.
  revert all_tags. induction tags as [|t tags IH]; intros all_tags; [done|]. apply IH.
Qed.

Section ScanFurther.
Context `{Externals}.

Lemma collect_tags_snd (content : string) (all_tags : gset hkey) :
  (collect_tags content all_tags).2 = (collect_tags content ∅).2.
Proof.
  unfold collect_tags. destruct (negb _); [done|].
  destruct (py_contains _ _) as [[|]|e]; try done.
  destruct (py_getitem _ _) as [v|e]; [|done].
  destruct v; try done. apply set_update_snd.
Qed.

Lemma scan_file_snd (fs : filesystem) (st : gset hkey * list out_event) (md_file : string) :
  (scan_file fs st md_file).2 = st.2 ++ file_report fs md_file.
Proof.
  unfold scan_file, file_report, file_error.
  destruct (read_file fs md_file) as [content|e]; [|done].
  rewrite <- (collect_tags_snd content st.1).
  destruct (collect_tags content st.1) as [all_tags [e|]]; [done|]. by rewrite app_nil_r.
Qed.

Lemma foldl_scan_file_snd (fs : filesystem) (st : gset hkey * list out_event)
    (md_files : list string) :
  (foldl (scan_file fs) st md_files).2 = st.2 ++ (md_files ≫= file_report fs).
Proof.
  revert st. induction md_files as [|p md_files IH]; intros st.
  - cbn. by rewrite app_nil_r.
  - cbn [foldl]. rewrite IH, scan_file_snd. cbn. by rewrite app_assoc.
Qed.

(** A file whose name does not end in [.md] has no part in the vocabulary. *)
Theorem get_all_vault_tags_ignores_other_files (fs : filesystem) (p : string) (f : file) :
  endswith p ".md" = false →
  (get_all_vault_tags (<[p := f]> fs)).1 = (get_all_vault_tags (delete p fs)).1.
Proof.
  intros Hmd. apply set_eq. intros x. rewrite !elem_of_get_all_vault_tags.
  split; intros (p' & content & w & Hf & Hmd' & Hx); exists p', content, w.
  - apply lookup_insert_Some in Hf as [[<- _] | [Hne Hf]]; [congruence|].
    split; [|done]. by apply lookup_delete_Some.
  - apply lookup_delete_Some in Hf as [Hne Hf].
    split; [|done]. by rewrite lookup_insert_ne.
Qed.

(** The vocabulary grows with the vault: adding files never removes a
    tag. *)
Theorem get_all_vault_tags_monotone (fs fs' : filesystem) :
  fs ⊆ fs' → (get_all_vault_tags fs).1 ⊆ (get_all_vault_tags fs').1.
Proof.
  intros Hsub x. rewrite !elem_of_get_all_vault_tags.
  intros (p & content & w & Hf & Hmd & Hx). exists p, content, w.
  split; [|done]. by eapply lookup_weaken.
Qed.

Lemma NoDup_rglob_md (fs : filesystem) : NoDup (rglob_md fs).
Proof. unfold rglob_md. apply NoDup_filter, NoDup_fst_map_to_list. Qed.

Lemma elem_of_file_report (fs : filesystem) (p : string) (ev : out_event) :
  ev ∈ file_report fs p ↔ ∃ e, ev = ErrorProcessing p e ∧ file_error fs p = Some e.
Proof.
  unfold file_report. destruct (file_error fs p) as [e|].
  - rewrite list_elem_of_singleton. split.
    + intros ->. by exists e.
    + by intros (e' & -> & [= ->]).
  - split; [by intros ?%elem_of_nil | by intros (e' & _ & ?)].
Qed.

Lemma NoDup_bind_file_report (fs : filesystem) (md_files : list string) :
  NoDup md_files → NoDup (md_files ≫= file_report fs).
Proof.
  induction 1 as [|p l Hp Hl IH]; [constructor|].
  cbn. apply NoDup_app. split; [|split; [|exact IH]].
  - unfold file_report. destruct (file_error fs p); [apply NoDup_singleton | constructor].
  - intros ev (e & -> & _)%elem_of_file_report
      (q & (e' & [= <- _] & _)%elem_of_file_report & Hq)%list_elem_of_bind.
    done.
Qed.

(** What the scan prints: exactly one line for each markdown file on which
    the loop body raised, and nothing else; no line is printed twice.  A
    file that cannot be read is reported with the error of the read; a note
    without a block, or whose block is a mapping with a list of string tags,
    is never reported. *)
Theorem get_all_vault_tags_report (fs : filesystem) :
  NoDup (get_all_vault_tags fs).2 ∧
  length (get_all_vault_tags fs).2
  = length (filter (fun p => is_Some (file_error fs p)) (rglob_md fs)) ∧
  (∀ ev, ev ∈ (get_all_vault_tags fs).2 ↔
         ∃ p e, ev = ErrorProcessing p e ∧ is_Some (fs !! p) ∧
                endswith p ".md" = true ∧ file_error fs p = Some e) ∧
  (∀ p e, fs !! p = Some (Unreadable e) → endswith p ".md" = true →
          ErrorProcessing p e ∈ (get_all_vault_tags fs).2) ∧
  (∀ p content w e, fs !! p = Some (Regular content w) →
                    startswith content "---" = false →
                    ErrorProcessing p e ∉ (get_all_vault_tags fs).2) ∧
  (∀ p content w d tags e,
     fs !! p = Some (Regular content w) →
     parse_frontmatter content = PDict d →
     dict_get (KStr "tags") d = Some (PList (PStr <$> tags)) →
     ErrorProcessing p e ∉ (get_all_vault_tags fs).2).
Proof.
  assert ((get_all_vault_tags fs).2 = rglob_md fs ≫= file_report fs) as Hprinted.
  { unfold get_all_vault_tags. by rewrite foldl_scan_file_snd. }
  assert (∀ ev, ev ∈ (get_all_vault_tags fs).2 ↔
            ∃ p e, ev = ErrorProcessing p e ∧ is_Some (fs !! p) ∧
                   endswith p ".md" = true ∧ file_error fs p = Some e) as Hlog.
  { intros ev. rewrite Hprinted, list_elem_of_bind. split.
    - intros (p & (e & -> & Herr)%elem_of_file_report & [Hsome Hmd]%elem_of_rglob_md).
      by exists p, e.
    - intros (p & e & -> & Hsome & Hmd & Herr). exists p. split.
      + apply elem_of_file_report. by exists e.
      + by apply elem_of_rglob_md. }
  split; [|split; [|split; [exact Hlog|split; [|split]]]].
  - rewrite Hprinted. apply NoDup_bind_file_report, NoDup_rglob_md.
  - rewrite Hprinted. generalize (rglob_md fs). intros l.
    induction l as [|p l IH]; [done|].
    cbn [mbind list_bind]. rewrite length_app, IH, filter_cons.
    unfold file_report. destruct (file_error fs p) as [e|].
    + by rewrite decide_True by by eexists.
    + by rewrite decide_False by (by intros [? ?]).
  - intros p e Hf Hmd. apply Hlog. exists p, e.
    split; [done|]. split; [by eexists|]. split; [done|].
    unfold file_error, read_file. by rewrite Hf.
  - intros p content w e Hf Hstart (p' & e' & [= <- <-] & _ & _ & Herr)%Hlog.
    unfold file_error, read_file in Herr. rewrite Hf in Herr.
    unfold collect_tags, parse_frontmatter in Herr. by rewrite Hstart in Herr.
  - intros p content w d tags e Hf Hparse Htags (p' & e' & [= <- <-] & _ & _ & Herr)%Hlog.
    unfold file_error, read_file in Herr. rewrite Hf in Herr.
    unfold collect_tags in Herr. rewrite Hparse in Herr.
    cbn [truthy py_contains py_getitem] in Herr.
    destruct d as [|kv d]; [done|]. cbn [negb] in Herr. rewrite Htags in Herr.
    rewrite bool_decide_eq_true_2 in Herr by by eexists.
    by rewrite set_update_strs in Herr.
Qed.

End ScanFurther.

Lemma get_all_vault_tags_ignores_other_files_witness :
  (@get_all_vault_tags (recorded vault_facts) (<["notes.txt" := Regular doc_ab true]> vault_abc)).1
  = (@get_all_vault_tags (recorded vault_facts) (delete "notes.txt" vault_abc)).1.
Proof.
  apply (@get_all_vault_tags_ignores_other_files (recorded vault_facts)). reflexivity.
Defined.

Lemma get_all_vault_tags_monotone_witness :
  (@get_all_vault_tags (recorded vault_facts) {[ "one.md" := Regular doc_ab true ]}).1
  ⊆ (@get_all_vault_tags (recorded vault_facts)
       (<["dir/two.md" := Regular doc_bc true]> {[ "one.md" := Regular doc_ab true ]})).1.
Proof.
  apply (@get_all_vault_tags_monotone (recorded vault_facts)).
  apply insert_subseteq. reflexivity.
Defined.

(** ** The prompt *)

Lemma as_strs_is_Some (l : list pyval) :
  is_Some (as_strs l) ↔ ∀ v, v ∈ l → ∃ s, v = PStr s.
Proof.
  induction l as [|v l IH].
  - split; [by intros _ v ?%elem_of_nil | by eexists].
  - split.
    + intros [ss Hss]. apply as_strs_Some in Hss.
      intros w Hw. rewrite Hss in Hw.
      apply list_elem_of_fmap in Hw as (s & -> & _). by exists s.
    + intros Hall. destruct (Hall v) as [s ->]; [by left|].
      cbn [as_strs]. destruct (proj2 IH) as [ss ->]; [|by eexists].
      intros w Hw. apply Hall. by right.
Qed.

Lemma join_sorted_is_Ok (vault_tags : gset hkey) :
  is_raise (join_sorted vault_tags) = false ↔ ∀ k, k ∈ vault_tags → ∃ s, k = KStr s.
Proof.
  unfold join_sorted.
  destruct (mapM key_str (elements vault_tags)) as [ss|] eqn:Hm; cbn [is_raise].
  - split; [|done]. intros _ k Hk%elem_of_elements.
    assert (is_Some (mapM key_str (elements vault_tags))) as Hs by by eexists.
    apply mapM_is_Some in Hs. rewrite Forall_forall in Hs.
    destruct (Hs k Hk) as [s Hks].
    destruct k; try done. by eexists.
  - split; [done|]. intros Hall. apply mapM_None in Hm.
    apply Exists_exists in Hm as (k & Hk%elem_of_elements & Hnone).
    destruct (Hall k Hk) as [s ->]. done.
Qed.

Section PromptFurther.
Context `{Externals}.

(** The prompt for a list of current tags can be built exactly when every
    tag of the vault and every current tag is a string; otherwise building
    it raises. *)
Theorem create_tag_generation_prompt_strings_only
    (title file_contents : string) (current_tags : list pyval) (vault_tags : gset hkey) :
  is_raise (create_tag_generation_prompt title file_contents (PList current_tags) vault_tags)
  = false ↔
  (∀ k, k ∈ vault_tags → ∃ s, k = KStr s) ∧ (∀ v, v ∈ current_tags → ∃ s, v = PStr s).
Proof.
  rewrite <- join_sorted_is_Ok, <- as_strs_is_Some.
  unfold create_tag_generation_prompt, py_join.
  destruct (join_sorted vault_tags) as [vault|e]; cbn [mbind result_bind is_raise].
  - destruct (as_strs current_tags) as [ss|]; cbn [mbind result_bind is_raise].
    + split; [|done]. intros _. split; [done | by eexists].
    + split; [done|]. by intros [_ [? ?]].
  - split; [done | by intros [? _]].
Qed.

(** One tag in the vault that is not a string (a number, a boolean, a null)
    makes [suggest_tags] raise a [TypeError] for every note, and every run
    of [add_tags] on that vault raises and changes no file. *)
Theorem non_string_vault_tag_aborts (fs : filesystem) (k : hkey) :
  k ∈ (get_all_vault_tags fs).1 →
  key_str k = None →
  (∀ title file_contents current_tags,
     ∃ msg, suggest_tags title file_contents current_tags (get_all_vault_tags fs).1
            = Raise (TypeError msg)) ∧
  (∀ filepath, ∃ out e, add_tags fs filepath = (World fs out, Some e)).
Proof.
  intros Hk Hnone.
  assert (∀ title file_contents current_tags,
            ∃ msg, suggest_tags title file_contents current_tags (get_all_vault_tags fs).1
                   = Raise (TypeError msg)) as Hsuggest.
  { intros title file_contents current_tags.
    unfold suggest_tags, create_tag_generation_prompt.
    destruct (join_sorted (get_all_vault_tags fs).1) as [vault|e] eqn:Hjoin.
    - assert (is_raise (join_sorted (get_all_vault_tags fs).1) = false) as Hok
        by by rewrite Hjoin.
      destruct (proj1 (join_sorted_is_Ok _) Hok k Hk) as [s ->]. done.
    - unfold join_sorted in Hjoin. destruct (mapM _ _); [done|].
      injection Hjoin as <-. by eexists. }
  split; [exact Hsuggest|]. intros filepath.
  destruct (add_tags fs filepath) as [[fs' out] [e|]] eqn:Hrun.
  - apply add_tags_raise_keeps_files in Hrun as Hfs. cbn in Hfs. subst fs'.
    by exists out, e.
  - exfalso. revert Hrun. unfold add_tags, add_tags_try.
    destruct (read_file fs filepath) as [contents|e0]; [|done].
    destruct (get_current_tags _) as [current_tags|e0]; [|done].
    destruct (Hsuggest (path_stem filepath) contents current_tags) as [msg Hs].
    destruct (get_all_vault_tags fs) as [vault_tags scan_out]. cbn [fst] in Hs.
    by rewrite Hs.
Qed.

End PromptFurther.

Lemma non_string_vault_tag_aborts_witness :
  ∃ out e, @add_tags (recorded year_facts) year_vault "one.md"
           = (World year_vault out, Some e).
Proof.
  apply (@non_string_vault_tag_aborts (recorded year_facts) year_vault (KNum 2024));
    vm_compute; reflexivity.
Defined.

(** ** The orchestrator *)

Lemma write_file_Ok (fs fs' : filesystem) (p s : string) :
  write_file fs p s = Ok fs' → fs' = <[p := Regular s true]> fs.
Proof.
  unfold write_file. destruct (fs !! p) as [[c [|]|e]|]; by intros [= <-].
Qed.

Lemma read_write_file_Ok (fs fs' : filesystem) (p contents s : string) :
  read_file fs p = Ok contents → write_file fs p s = Ok fs' →
  fs !! p = Some (Regular contents true).
Proof.
  unfold read_file, write_file. destruct (fs !! p) as [[c [|]|e]|]; try done.
  by intros [= ->].
Qed.

Lemma added_tags_nil (new_tags : list string) :
  added_tags new_tags [] = list_to_set new_tags.
Proof.
  unfold added_tags. f_equal. induction new_tags as [|t l IH]; [done|].
  rewrite filter_cons. rewrite decide_True by done. f_equal. exact IH.
Qed.

Section OrchestratorFurther.
Context `{Externals}.

Lemma add_tags_other_files (fs : filesystem) (filepath other : string) :
  other ≠ filepath →
  w_fs (add_tags fs filepath).1 !! other = fs !! other.
Proof.
  intros Hne. destruct (add_tags fs filepath) as [w [e|]] eqn:Hrun; cbn [fst].
  - by rewrite (add_tags_raise_keeps_files _ _ _ _ Hrun).
  - revert Hrun. unfold add_tags, add_tags_try.
    destruct (read_file fs filepath) as [contents|e0]; [|done].
    destruct (get_current_tags _) as [current_tags|e0]; [|done].
    destruct (get_all_vault_tags fs) as [vault_tags scan_out].
    destruct (suggest_tags _ _ _ _) as [new_tags|e0]; [|done].
    destruct (merge_tags _ _) as [all_tags|e0]; [|done].
    destruct (update_frontmatter_tags _ _) as [updated_content update_out].
    destruct (write_file _ _ _) as [fs'|e0] eqn:Hwrite; [|done].
    intros [= <-]. cbn [w_fs]. apply write_file_Ok in Hwrite as ->.
    by rewrite lookup_insert_ne.
Qed.

(** A run of [add_tags] changes no file other than its target, whatever its
    outcome, and a run that raises changes no file at all. *)
Theorem add_tags_changes_only_target (fs : filesystem) (filepath : string) :
  (∀ other, other ≠ filepath → w_fs (add_tags fs filepath).1 !! other = fs !! other) ∧
  (∀ e, (add_tags fs filepath).2 = Some e → w_fs (add_tags fs filepath).1 = fs).
Proof.
  split.
  - intros other. apply add_tags_other_files.
  - intros e. destruct (add_tags fs filepath) as [w r] eqn:Hrun. cbn [fst snd].
    intros ->. by apply (add_tags_raise_keeps_files _ _ _ _ Hrun).
Qed.

(** A run of [add_tags] that raises nothing read a writable target whose
    current tags are strings, obtained suggestions for it, and left at the
    target the serialization of the sorted union of both lists; it printed
    the lines of the scan and of the serialization, the success line and the
    added tags. *)
Theorem add_tags_success (fs : filesystem) (filepath : string) (w : world) :
  add_tags fs filepath = (w, None) →
  ∃ contents current_tags new_tags,
    let merged := PStr <$> sorted_unique (current_tags ++ new_tags) in
    fs !! filepath = Some (Regular contents true) ∧
    get_current_tags (parse_frontmatter contents) = Ok (PList (PStr <$> current_tags)) ∧
    suggest_tags (path_stem filepath) contents (PList (PStr <$> current_tags))
      (get_all_vault_tags fs).1 = Ok new_tags ∧
    w_fs w = <[filepath := Regular (update_frontmatter_tags contents merged).1 true]> fs ∧
    w_out w = (get_all_vault_tags fs).2 ++ (update_frontmatter_tags contents merged).2 ++
              [SuccessfullyUpdated filepath;
               AddedTags (added_tags new_tags (PStr <$> current_tags))].
Proof.
  unfold add_tags, add_tags_try.
  destruct (read_file fs filepath) as [contents|e0] eqn:Hread; [|done].
  destruct (get_current_tags _) as [current|e0] eqn:Hcurrent; [|done].
  destruct (get_all_vault_tags fs) as [vault_tags scan_out].
  destruct (suggest_tags _ _ _ _) as [new_tags|e0] eqn:Hsuggest; [|done].
  destruct (merge_tags _ _) as [all_tags|e0] eqn:Hmerge; [|done].
  destruct (update_frontmatter_tags _ _) as [updated_content update_out] eqn:Hupdate.
  destruct (write_file _ _ _) as [fs'|e0] eqn:Hwrite; [|done].
  intros [= <-].
  assert (∃ cur, current = PList (PStr <$> cur)) as [cur ->].
  { revert Hmerge Hsuggest. unfold merge_tags, py_add_list.
    destruct current as [| | | |l|]; try done. intros _.
    unfold suggest_tags, create_tag_generation_prompt, py_join.
    destruct (join_sorted vault_tags); [|done]. cbn [mbind result_bind].
    destruct (as_strs l) as [cur|] eqn:Hl; [|done]. intros _.
    exists cur. by rewrite (as_strs_Some _ _ Hl). }
  assert (all_tags = PStr <$> sorted_unique (cur ++ new_tags)) as ->.
  { revert Hmerge. unfold merge_tags, py_add_list. cbn [mbind result_bind].
    rewrite <- fmap_app, py_sorted_set_strs. by intros [= <-]. }
  exists contents, cur, new_tags. cbv zeta. rewrite Hupdate. cbn [fst snd w_fs w_out].
  split; [by eapply read_write_file_Ok|]. split; [done|]. split; [done|].
  split; [by apply write_file_Ok in Hwrite|done].
Qed.

(** On a note without a metadata block, with a writable file and
    suggestions from the service, [add_tags] writes a new block holding the
    sorted, deduplicated suggestions in front of the unchanged text, and
    reports every suggestion as added. *)
Theorem add_tags_without_block
    (fs : filesystem) (filepath contents : string) (new_tags : list string) :
  fs !! filepath = Some (Regular contents true) →
  startswith contents "---" = false →
  suggest_tags (path_stem filepath) contents (PList []) (get_all_vault_tags fs).1
  = Ok new_tags →
  add_tags fs filepath
  = (World
       (<[filepath := Regular ("---" +:+ LF +:+ "tags: " +:+
                               py_str (PStr <$> sorted_unique new_tags) +:+ LF +:+
                               "---" +:+ LF +:+ LF +:+ contents) true]> fs)
       ((get_all_vault_tags fs).2 ++
        [SuccessfullyUpdated filepath; AddedTags (list_to_set new_tags)]),
     None).
Proof.
  intros Hfile Hstart Hsuggest. unfold add_tags, add_tags_try, read_file.
  rewrite Hfile. unfold parse_frontmatter. rewrite Hstart.
  cbn [negb get_current_tags dict_get].
  destruct (get_all_vault_tags fs) as [vault_tags scan_out]. cbn [fst snd] in *.
  rewrite Hsuggest.
  assert (merge_tags (PList []) new_tags = Ok (PStr <$> sorted_unique new_tags)) as ->.
  { unfold merge_tags, py_add_list. cbn [mbind result_bind app].
    apply py_sorted_set_strs. }
  unfold update_frontmatter_tags. rewrite Hstart. cbn [negb].
  unfold write_file. rewrite Hfile. by rewrite added_tags_nil.
Qed.

(** The current tags of a note are never a bare string: a [tags] value that
    is a string is read as the list of that one tag, by [add_tags] and by
    the vault scan alike, and an absent key as the empty list. *)
Theorem bare_string_tag_is_singleton (content content' : string)
    (d d' : list (pyval * pyval)) (tag : string) :
  parse_frontmatter content = PDict d →
  parse_frontmatter content' = PDict d' →
  dict_get (KStr "tags") d = Some (PStr tag) →
  dict_get (KStr "tags") d' = Some (PList [PStr tag]) →
  get_current_tags (parse_frontmatter content) = Ok (PList [PStr tag]) ∧
  get_current_tags (parse_frontmatter content)
  = get_current_tags (parse_frontmatter content') ∧
  doc_tags content = doc_tags content' ∧
  (∀ frontmatter current_tags,
     get_current_tags frontmatter = Ok current_tags → ∀ s, current_tags ≠ PStr s).
Proof.
  intros Hp Hp' Ht Ht'. rewrite Hp, Hp'. cbn [get_current_tags]. rewrite Ht, Ht'.
  split; [done|]. split; [done|]. split.
  - unfold doc_tags. rewrite Hp, Hp', Ht, Ht'. cbn. set_solver.
  - intros frontmatter current_tags Hc s ->. revert Hc.
    destruct frontmatter as [| | | | |d0]; try done. cbn [get_current_tags].
    destruct (dict_get (KStr "tags") d0) as [[]|]; done.
Qed.

End OrchestratorFurther.

Lemma add_tags_success_witness :
  ∃ contents,
    ({[ "note.md" := Regular e2e_doc true ]} : filesystem) !! "note.md"
    = Some (Regular contents true).
Proof.
  assert (@add_tags (recorded e2e_facts) {[ "note.md" := Regular e2e_doc true ]} "note.md"
          = (World {[ "note.md" := Regular e2e_written true ]}
               [SuccessfullyUpdated "note.md"; AddedTags {[ "bar"; "baz" ]}], None))
    as Hrun by (vm_compute; reflexivity).
  destruct (@add_tags_success (recorded e2e_facts) _ _ _ Hrun)
    as (contents & cur & new & Hw).
  cbv zeta in Hw. destruct Hw as (Hfile & _). by exists contents.
Defined.

Lemma add_tags_without_block_witness :
  @add_tags (recorded plain_facts) plain_vault "plain.md"
  = (World
       (<["plain.md" := Regular ("---" +:+ LF +:+ "tags: ['bar', 'baz']" +:+ LF +:+
                                 "---" +:+ LF +:+ LF +:+ doc_plain) true]> plain_vault)
       [SuccessfullyUpdated "plain.md"; AddedTags {[ "bar"; "baz" ]}],
     None).
Proof.
  rewrite (@add_tags_without_block (recorded plain_facts) plain_vault "plain.md"
             doc_plain ["bar"; "baz"] eq_refl eq_refl eq_refl).
  reflexivity.
Defined.

Lemma bare_string_tag_is_singleton_witness :
  @get_current_tags (@parse_frontmatter (recorded bare_facts) e2e_doc)
  = @get_current_tags (@parse_frontmatter (recorded bare_facts) bare_list_doc).
Proof.
  apply (@bare_string_tag_is_singleton (recorded bare_facts) e2e_doc bare_list_doc
           [(PStr "tags", PStr "foo")] [(PStr "tags", PList [PStr "foo"])] "foo");
    reflexivity.
Defined.

(** ** The command line *)

Section MainFurther.
Context `{Externals}.
Variable normalize_path : string → string.

(** Without an argument, without the key, with an empty key, or when the
    confirmation cannot be read, [main] does not run the tagger: no file
    changes, nothing of [add_tags] is printed, and the only exception that
    can escape is that of the confirmation. *)
Theorem main_early_exit (argv : list string) (api_key : option string)
    (stdin : result string) (fs : filesystem) :
  length argv < 2 ∨ api_key = None ∨ api_key = Some "" ∨ is_raise stdin = true →
  (main normalize_path argv api_key stdin fs).1.1 = fs ∧
  (∀ ev, Tagger ev ∉ (main normalize_path argv api_key stdin fs).1.2) ∧
  (∀ e, (main normalize_path argv api_key stdin fs).2 = Some e → stdin = Raise e).
Proof.
  intros Hexit. unfold main. case_bool_decide as Hlen.
  { cbn. split; [done|]. split; [|done].
    intros ev [[=]|Hin%elem_of_nil]%elem_of_cons. done. }
  destruct (match api_key with None => true | Some key => String.eqb key "" end) eqn:Hkey.
  { cbn. split; [done|]. split; [|done].
    intros ev [[=]|Hin%elem_of_nil]%elem_of_cons. done. }
  destruct stdin as [line|e].
  { exfalso. destruct Hexit as [? | [-> | [-> | ?]]]; done. }
  cbn. split; [done|]. split; [|by intros e' [= <-]].
  intros ev [[=]|[[=]|Hin%elem_of_nil]%elem_of_cons]%elem_of_cons. done.
Qed.

(** Several arguments are one path with spaces: [main] behaves on them as
    on the single argument that joins them with blanks. *)
Theorem main_joins_arguments (prog : string) (args : list string)
    (api_key : option string) (stdin : result string) (fs : filesystem) :
  args ≠ [] →
  main normalize_path (prog :: args) api_key stdin fs
  = main normalize_path [prog; str_join " " args] api_key stdin fs.
Proof.
  intros Hargs. unfold main.
  rewrite !bool_decide_eq_false_2; [done | cbn; lia |].
  destruct args; [done | cbn; lia].
Qed.

(** Whatever its arguments and outcome, [main] changes no file other than
    the one named by its joined arguments. *)
Theorem main_changes_only_target (argv : list string) (api_key : option string)
    (stdin : result string) (fs : filesystem) (other : string) :
  other ≠ normalize_path (str_join " " (drop 1 argv)) →
  (main normalize_path argv api_key stdin fs).1.1 !! other = fs !! other.
Proof.
  intros Hne. unfold main. case_bool_decide; [done|].
  destruct (match api_key with None => true | Some key => String.eqb key "" end); [done|].
  destruct stdin as [line|e]; [|done].
  pose proof (add_tags_other_files fs _ _ Hne) as Hframe.
  destruct (add_tags fs _) as [w raised]. exact Hframe.
Qed.

End MainFurther.

Lemma main_early_exit_witness :
  (@main (recorded e2e_facts) id ["tagger"; "note.md"] (Some "") (Ok "")
     {[ "note.md" := Regular e2e_doc true ]}).1.1
  = {[ "note.md" := Regular e2e_doc true ]}.
Proof.
  apply (@main_early_exit (recorded e2e_facts) id). right. right. by left.
Defined.

Lemma main_joins_arguments_witness :
  @main (recorded e2e_facts) id ["tagger"; "my"; "note.md"] (Some "key") (Ok "")
    {[ "my note.md" := Regular e2e_doc true ]}
  = @main (recorded e2e_facts) id ["tagger"; "my note.md"] (Some "key") (Ok "")
      {[ "my note.md" := Regular e2e_doc true ]}.
Proof.
  apply (@main_joins_arguments (recorded e2e_facts) id "tagger" ["my"; "note.md"]).
  discriminate.
Defined.

Lemma main_changes_only_target_witness :
  (@main (recorded e2e_facts) id ["tagger"; "note.md"] (Some "key") (Ok "")
     {[ "note.md" := Regular e2e_doc true; "other.md" := Regular doc_plain true ]}).1.1
  !! "other.md"
  = ({[ "note.md" := Regular e2e_doc true; "other.md" := Regular doc_plain true ]}
       : filesystem) !! "other.md".
Proof.
  apply (@main_changes_only_target (recorded e2e_facts) id). discriminate.
Defined.
